(** * Alocare-Proiecte: allocation of project domains to student teams

    A shallow embedding of [alocare.py] and the properties of its
    three-round allocation.  A pandas [DataFrame] is a list of row records
    (the row label of the default [RangeIndex] is the position in the
    list); a Python [str] is the [string] of its UTF-8 bytes, as [read_csv]
    decodes the file with [encoding='utf-8']; a missing value ([NaN] /
    [pandas.NA]) is [None].  A function that mutates the table and returns
    it takes the table and returns the new one; a function that can raise
    returns a [result].  The random generator and the CSV reader and writer
    are interfaces ([RandomGen], [CsvIO]); reading and writing can both
    fail.  [fast_random_choice], which nothing calls and which numba
    compiles against its own generator, is not part of the embedding. *)

From Stdlib Require Import ZArith Ascii String.
From stdpp Require Import base tactics option list sorting gmap strings pretty.

Local Open Scope string_scope.
Local Open Scope Z_scope.

(** ** Python string primitives

    On UTF-8 bytes, splitting at an ASCII character, removing or looking
    for one, prefix tests and comparisons give what Python gives on code
    points, since an ASCII byte is never part of a longer character and
    the byte order is the code point order; only indexing differs. *)

Module Py.

(** [s.replace(old, '')] for a one-character [old]. *)
Fixpoint remove_char (c : ascii) (s : string) : string :=
  match s with
  | EmptyString => EmptyString
  | String a s' =>
      if Ascii.eqb a c then remove_char c s' else String a (remove_char c s')
  end.

(** [s.split(sep)] for a one-character separator: always at least one
    piece. *)
Fixpoint split (sep : ascii) (s : string) : list string :=
  match s with
  | EmptyString => [EmptyString]
  | String a s' =>
      if Ascii.eqb a sep then EmptyString :: split sep s'
      else match split sep s' with
           | h :: t => String a h :: t
           | [] => [String a EmptyString]
           end
  end.

(** The piece before the first separator and, when there is a separator,
    the rest. *)
Fixpoint partition (sep : ascii) (s : string) : string * option string :=
  match s with
  | EmptyString => (EmptyString, None)
  | String a s' =>
      if Ascii.eqb a sep then (EmptyString, Some s')
      else let '(h, t) := partition sep s' in (String a h, t)
  end.

(** [s.split(sep, 1)] (pandas: [.str.split(sep, n=1)]). *)
Definition split_n1 (sep : ascii) (s : string) : list string :=
  match partition sep s with
  | (h, None) => [h]
  | (h, Some t) => [h; t]
  end.

(** A byte [10xxxxxx]: in UTF-8 the bytes of a character after its first
    are of this form, and no first byte is. *)
Definition is_continuation (a : ascii) : bool :=
  match a with
  | Ascii _ _ _ _ _ _ b6 b7 => b7 && negb b6
  end.

(** The continuation bytes a string starts with. *)
Fixpoint continuation_bytes (s : string) : string :=
  match s with
  | EmptyString => EmptyString
  | String a s' =>
      if is_continuation a then String a (continuation_bytes s') else EmptyString
  end.

(** pandas [.str[0]] on a string: the first character (code point), that
    is its first byte and the continuation bytes that follow; [NaN] when
    the string is empty. *)
Definition str_get0 (s : string) : option string :=
  match s with
  | EmptyString => None
  | String a s' => Some (String a (continuation_bytes s'))
  end.

(** [s.startswith(p)]. *)
Definition startswith (s p : string) : bool := String.prefix p s.

(** Truthiness of a [str]. *)
Definition truthy (s : string) : bool := negb (String.eqb s "").

(** [c in s] for a character. *)
Fixpoint contains (c : ascii) (s : string) : bool :=
  match s with
  | EmptyString => false
  | String a s' => Ascii.eqb a c || contains c s'
  end.

End Py.

(** ** Exceptions and results *)

Inductive Exception :=
| KeyError (key : string)
| ValueError (msg : string)
| OSError (msg : string).

(** [str(e)], as interpolated by [f"Error: {e}"]; a [KeyError] carries its
    key as printed. *)
Definition str_exc (e : Exception) : string :=
  match e with
  | KeyError k => k
  | ValueError m => m
  | OSError m => m
  end.

Inductive result (A : Type) :=
| Ok (a : A)
| Raise (e : Exception).
Arguments Ok {A} a.
Arguments Raise {A} e.

Global Instance result_ret : MRet result := fun _ a => Ok a.
Global Instance result_bind : MBind result := fun _ _ k r =>
  match r with
  | Ok a => k a
  | Raise e => Raise e
  end.

(** ** The table *)

(** A row of the CSV as [read_csv] delivers it: both columns have the
    pandas [string] dtype, an empty field is [pandas.NA]. *)
Record RawRow := {
  raw_Echipa : option string;
  raw_Optiuni : option string
}.

(** What [read_csv] returns: a frame that has the two columns, or a frame
    whose header lacks one of them (every later [df[name]] raises
    [KeyError]). *)
Inductive RawFrame :=
| Frame (rows : list RawRow)
| FrameWithout (column : string).

Record Row := {
  Echipa : option string;
  Optiuni : option string;
  grupa : option string;
  d1 : string;
  d2 : string;
  d3 : string;
  domenii : list string;
  alocare : string;
  runda : string;
  tema_proiect : string
}.

Abbreviation DataFrame := (list Row).

Definition set_d2 (v : string) (r : Row) : Row :=
  {| Echipa := Echipa r; Optiuni := Optiuni r; grupa := grupa r;
     d1 := d1 r; d2 := v; d3 := d3 r; domenii := domenii r;
     alocare := alocare r; runda := runda r; tema_proiect := tema_proiect r |}.

Definition set_d3 (v : string) (r : Row) : Row :=
  {| Echipa := Echipa r; Optiuni := Optiuni r; grupa := grupa r;
     d1 := d1 r; d2 := d2 r; d3 := v; domenii := domenii r;
     alocare := alocare r; runda := runda r; tema_proiect := tema_proiect r |}.

Definition set_alocare (v : string) (r : Row) : Row :=
  {| Echipa := Echipa r; Optiuni := Optiuni r; grupa := grupa r;
     d1 := d1 r; d2 := d2 r; d3 := d3 r; domenii := domenii r;
     alocare := v; runda := runda r; tema_proiect := tema_proiect r |}.

Definition set_runda (v : string) (r : Row) : Row :=
  {| Echipa := Echipa r; Optiuni := Optiuni r; grupa := grupa r;
     d1 := d1 r; d2 := d2 r; d3 := d3 r; domenii := domenii r;
     alocare := alocare r; runda := v; tema_proiect := tema_proiect r |}.

Definition set_tema_proiect (v : string) (r : Row) : Row :=
  {| Echipa := Echipa r; Optiuni := Optiuni r; grupa := grupa r;
     d1 := d1 r; d2 := d2 r; d3 := d3 r; domenii := domenii r;
     alocare := alocare r; runda := runda r; tema_proiect := v |}.

(** The preference columns an allocation round can read. *)
Inductive DomainCol := col_d1 | col_d2 | col_d3.

Definition get_col (c : DomainCol) (r : Row) : string :=
  match c with
  | col_d1 => d1 r
  | col_d2 => d2 r
  | col_d3 => d3 r
  end.

(** ** preprocess_dataframe *)

Definition SEED : Z := 19032025.
Definition INPUT_PATH : string := "data/lp3_proiecte_optiuni.csv".
Definition OUTPUT_PATH : string := "data/alocari_teme.csv".
Definition MANUAL : string := "De alocat manual".

(** [x.str.split('-', n=1).str[0]] on one value. *)
Definition before_hyphen (s : string) : string :=
  match Py.split_n1 "-"%char s with
  | h :: _ => h
  | [] => ""
  end.

(** [df['Echipa'].str.split('-', n=1).str[0].str[0]] on one value. *)
Definition group_of (echipa : option string) : option string :=
  e ← echipa; Py.str_get0 (before_hyphen e).

(** [df['Optiuni'].fillna('').str.replace(' ', '', regex=False)]. *)
Definition options_clean (optiuni : option string) : string :=
  Py.remove_char " "%char (default "" optiuni).

(** Column [k] of [options_clean.str.split(',', expand=True).fillna('')]
    on one row. *)
Definition domains_split (k : nat) (clean : string) : string :=
  default "" (Py.split ","%char clean !! k).

(** Lines 37-41: the two masked assignments on one row. *)
Definition dedup_domains (t1 t2 t3 : string) : string * string * string :=
  let d3 := if bool_decide (t3 = t1) || bool_decide (t3 = t2) || bool_decide (t3 = "")
            then "" else t3 in
  if bool_decide (t2 = t1) || bool_decide (t2 = "")
  then (t1, d3, "")
  else (t1, t2, d3).

Definition preprocess_row (raw : RawRow) : Row :=
  let clean := options_clean (raw_Optiuni raw) in
  let '(x1, x2, x3) :=
    dedup_domains (before_hyphen (domains_split 0 clean))
                  (before_hyphen (domains_split 1 clean))
                  (before_hyphen (domains_split 2 clean)) in
  {| Echipa := raw_Echipa raw; Optiuni := raw_Optiuni raw;
     grupa := group_of (raw_Echipa raw);
     d1 := x1; d2 := x2; d3 := x3;
     domenii := Py.split ","%char clean;
     alocare := ""; runda := ""; tema_proiect := "" |}.

(** The number of columns of [options_clean.str.split(',', expand=True)]:
    the largest number of pieces of a row. *)
Definition split_width (rows : list RawRow) : nat :=
  foldr Nat.max 0%nat
    ((fun raw => length (Py.split ","%char (options_clean (raw_Optiuni raw)))) <$> rows).

(** [domains_split[0]], [[1]] and [[2]] are column lookups: a frame none of
    whose rows has that many pieces has no such column. *)
Definition preprocess_dataframe (df : RawFrame) : result DataFrame :=
  match df with
  | FrameWithout c => Raise (KeyError c)
  | Frame rows =>
      if decide (split_width rows < 3)%nat
      then Raise (KeyError (pretty (split_width rows)))
      else Ok (preprocess_row <$> rows)
  end.

(** *** Preference lists *)

Definition nonempty (l : list string) : list string :=
  filter (fun s => s ≠ "") l.

(** The first occurrence of every element, in order. *)
Fixpoint first_occurrences (seen l : list string) : list string :=
  match l with
  | [] => []
  | x :: l' =>
      if decide (x ∈ seen) then first_occurrences seen l'
      else x :: first_occurrences (x :: seen) l'
  end.

(** No empty slot before a filled one. *)
Definition left_packed (l : list string) : Prop :=
  ∀ i j s, (i < j)%nat → l !! i = Some "" → l !! j = Some s → s = "".

(** The three domain tokens of a raw preference string. *)
Definition tokens (optiuni : option string) : list string :=
  let clean := options_clean optiuni in
  [before_hyphen (domains_split 0 clean);
   before_hyphen (domains_split 1 clean);
   before_hyphen (domains_split 2 clean)].

Definition prefs (r : Row) : list string := [d1 r; d2 r; d3 r].

(** ** Random numbers

    [numpy.random.RandomState] is a Mersenne Twister; the allocation only
    relies on its interface: a generator is built from a seed (numpy
    refuses seeds outside [0, 2^32)), and [randint(0, n)] returns a number
    below [n] and advances the generator. *)

Class RandomGen := {
  rng_state : Type;
  RandomState : Z → result rng_state;
  randint : rng_state → nat → nat * rng_state;
  RandomState_valid : ∀ seed, 0 ≤ seed < 2 ^ 32 → ∃ st, RandomState seed = Ok st;
  randint_range : ∀ st n, (0 < n)%nat → ((randint st n).1 < n)%nat
}.

(** ** groupby *)

Definition str_le (s1 s2 : string) : Prop := String.leb s1 s2 = true.
Definition str_lt (s1 s2 : string) : Prop := String.ltb s1 s2 = true.

(** Order of the keys of [groupby(['grupa', col])]: by group, then by
    domain. *)
Definition key_le (a b : string * string) : Prop :=
  str_lt a.1 b.1 ∨ (a.1 = b.1 ∧ str_le a.2 b.2).

Global Instance str_le_dec s1 s2 : Decision (str_le s1 s2).
Proof. unfold str_le. apply _. Defined.
Global Instance str_lt_dec s1 s2 : Decision (str_lt s1 s2).
Proof. unfold str_lt. apply _. Defined.
Global Instance key_le_dec a b : Decision (key_le a b).
Proof. unfold key_le. apply _. Defined.

Section groupby.
Context {A K V : Type} `{EqDecision K}.
Context (le : relation K) `{∀ x y, Decision (le x y)}.

(** [l.groupby(key)[val]] with pandas' defaults [sort=True] and
    [dropna=True]: one entry per distinct key that is not missing, keys in
    increasing order, and per key the values of its rows in row order. *)
Definition groupby (key : A → option K) (val : A → V) (l : list A)
  : list (K * list V) :=
  (λ k, (k, val <$> filter (λ a, key a = Some k) l))
    <$> merge_sort le (remove_dups (omap key l)).
End groupby.

(** ** allocate_round *)

Definition is_candidate (c : DomainCol) (r : Row) : bool :=
  bool_decide (alocare r = "") && bool_decide (get_col c r ≠ "").

Definition is_allocated (r : Row) : bool := bool_decide (alocare r ≠ "").

(** Lines 62-63 and 109-110: group -> set of domains its teams hold. *)
Definition build_allocated_dict (df : DataFrame) : gmap string (gset string) :=
  foldl (λ d '(group, domains), <[group := list_to_set domains]> d) ∅
    (groupby str_le grupa alocare (filter (λ r, is_allocated r) df)).

(** [group in allocated_dict and domain in allocated_dict[group]]. *)
Definition claims (dict : gmap string (gset string)) (group domain : string) : bool :=
  match dict !! group with
  | Some domains => bool_decide (domain ∈ domains)
  | None => false
  end.

(** Lines 84-87. *)
Definition add_claim (dict : gmap string (gset string)) (group domain : string)
  : gmap string (gset string) :=
  match dict !! group with
  | Some domains => <[group := domains ∪ {[domain]}]> dict
  | None => <[group := {[domain]}]> dict
  end.

(** [df.loc[team_indices, 'alocare'] = allocated_domains]. *)
Definition loc_set_alocare (idxs : list nat) (vals : list string) (df : DataFrame)
  : DataFrame :=
  foldl (λ df '(i, v), alter (set_alocare v) i df) df (zip idxs vals).

(** [df.loc[team_indices, 'runda'] = v]. *)
Definition loc_set_runda (idxs : list nat) (v : string) (df : DataFrame) : DataFrame :=
  foldl (λ df i, alter (set_runda v) i df) df idxs.

(** The partitions of one round: [candidates.groupby(['grupa', col])],
    each partition listed by the row labels of its teams. *)
Definition partitions (c : DomainCol) (df : DataFrame)
  : list ((string * string) * list nat) :=
  groupby key_le (λ ir : nat * Row, g ← grupa ir.2; Some (g, get_col c ir.2)) fst
    (filter (λ ir : nat * Row, is_candidate c ir.2) (imap pair df)).

Section allocation.
Context `{RandomGen}.

(** The variables the loop of lines 70-87 updates. *)
Record LoopState := {
  allocated_dict : gmap string (gset string);
  rng : rng_state;
  team_indices : list nat;
  allocated_domains : list string
}.

(** Lines 74-79: the team of a partition.  A partition of one team is
    taken without a draw.  ([group_df.index[k]] outside the partition
    would raise; [select_team_in] shows that [k] never is.) *)
Definition select_team (g : rng_state) (group_df : list nat) : nat * rng_state :=
  let team_count := length group_df in
  if decide (team_count = 1%nat) then (default 0%nat (group_df !! 0%nat), g)
  else
    let '(random_idx, g') := randint g team_count in
    (default 0%nat (group_df !! random_idx), g').

(** One iteration of the loop of lines 70-87. *)
Definition allocate_step (st : LoopState) (part : (string * string) * list nat)
  : LoopState :=
  let '((group, domain), group_df) := part in
  if claims (allocated_dict st) group domain then st
  else
    let '(idx, g') := select_team (rng st) group_df in
    {| allocated_dict := add_claim (allocated_dict st) group domain;
       rng := g';
       team_indices := team_indices st ++ [idx];
       allocated_domains := allocated_domains st ++ [domain] |}.

(** Lines 59-94, from the generator of the round on. *)
Definition allocate_from (g : rng_state) (df : DataFrame) (c : DomainCol)
    (round_num : Z) : DataFrame * nat :=
  let dict0 := if existsb is_allocated df then build_allocated_dict df else ∅ in
  let st := foldl allocate_step
              {| allocated_dict := dict0; rng := g;
                 team_indices := []; allocated_domains := [] |}
              (partitions c df) in
  match team_indices st with
  | [] => (df, 0%nat)
  | _ =>
      (loc_set_runda (team_indices st) (pretty round_num)
         (loc_set_alocare (team_indices st) (allocated_domains st) df),
       length (team_indices st))
  end.

Definition allocate_round (df : DataFrame) (c : DomainCol) (round_num : Z)
  : result (DataFrame * nat) :=
  if negb (existsb (is_candidate c) df) then Ok (df, 0%nat)
  else
    g ← RandomState (SEED + round_num);
    Ok (allocate_from g df c round_num).
End allocation.

(** ** update_preferences *)

(** Lines 125-137 on one row. *)
Definition update_round2 (dict : gmap string (gset string)) (r : Row) : Row :=
  match grupa r ≫= (dict !!.) with
  | None => set_d3 (d3 r) (set_d2 (d2 r) r)
  | Some claimed =>
      if bool_decide (d2 r ∈ claimed) then
        if Py.truthy (d3 r) && bool_decide (d3 r ∉ claimed)
        then set_d3 "" (set_d2 (d3 r) r)
        else set_d3 "" (set_d2 "" r)
      else set_d3 (d3 r) (set_d2 (d2 r) r)
  end.

(** Lines 151-154 on one row. *)
Definition update_round3 (dict : gmap string (gset string)) (r : Row) : Row :=
  match grupa r ≫= (dict !!.) with
  | Some claimed =>
      if bool_decide (d3 r ∈ claimed) then set_d3 "" r else set_d3 (d3 r) r
  | None => set_d3 (d3 r) r
  end.

Definition update_preferences (df : DataFrame) (round_num : Z) : DataFrame :=
  if negb (existsb is_allocated df) then df
  else
    let dict := build_allocated_dict df in
    if decide (round_num = 2) then update_round2 dict <$> df
    else if decide (round_num = 3) then update_round3 dict <$> df
    else df.

(** ** assign_themes *)

(** Lines 173-186 on one row. *)
Definition theme_of (r : Row) : string :=
  if negb (Py.truthy (alocare r)) then MANUAL
  else
    match List.find (λ tema, Py.truthy tema && Py.startswith tema (alocare r))
                    (domenii r) with
    | Some tema => tema
    | None => MANUAL
    end.

Definition assign_themes (df : DataFrame) : DataFrame :=
  (λ r, set_tema_proiect (theme_of r) r) <$> df.

(** ** allocate_projects *)

(** How [df.to_csv(path, ...)] ends: the file holds the whole table, or
    the call raises and leaves the file as it was ([None]: no directory,
    no permission) or with what it held when the error came ([Some]: a
    value that cannot be encoded, a full disk). *)
Inductive Written (F : Type) :=
| Complete
| Failed (e : Exception) (partial : option F).
Arguments Complete {F}.
Arguments Failed {F} e partial.

(** [pandas.read_csv] and [DataFrame.to_csv] are the table reader and
    writer; the allocation only relies on reading being a function of the
    file's content that fails when there is no file.  [csv_text] is the
    text of a table; whether writing it succeeds depends on the files. *)
Class CsvIO := {
  FileContent : Type;
  read_csv : option FileContent → result RawFrame;
  csv_text : DataFrame → FileContent;
  to_csv : DataFrame → string → gmap string FileContent → Written FileContent;
  read_csv_missing : ∃ e, read_csv None = Raise e
}.

Record Stats := {
  round1 : nat;
  round2 : nat;
  round3 : nat
}.

(** The tables of one run: after each allocation round, and the final one,
    with the counts of [allocation_stats]. *)
Record Run := {
  after_round1 : DataFrame;
  after_round2 : DataFrame;
  after_round3 : DataFrame;
  final : DataFrame;
  allocation_stats : Stats
}.

Section orchestrator.
Context `{RandomGen} `{CsvIO}.

(** What a run can read and write: the files, the error stream, and the
    process-wide generator of [numpy.random]. *)
Record World := {
  files : gmap string FileContent;
  stderr : list string;
  np_random : option rng_state
}.

(** Lines 208-215. *)
Definition run_rounds (raw : RawFrame) : result Run :=
  df0 ← preprocess_dataframe raw;
  '(df1, s1) ← allocate_round df0 col_d1 1;
  '(df2, s2) ← allocate_round (update_preferences df1 2) col_d2 2;
  '(df3, s3) ← allocate_round (update_preferences df2 3) col_d3 3;
  Ok {| after_round1 := df1; after_round2 := df2; after_round3 := df3;
        final := assign_themes df3;
        allocation_stats := {| round1 := s1; round2 := s2; round3 := s3 |} |}.

(** The body of the [try] up to the write: read, allocate. *)
Definition load_and_run (w : World) : result Run :=
  raw ← read_csv (files w !! INPUT_PATH);
  run_rounds raw.

(** Lines 198-221.  The write of line 216 is inside the [try]: when it
    raises, the run ends like any other failure, with the output file as
    the failed write left it. *)
Definition allocate_projects (w : World) : option DataFrame * World :=
  match load_and_run w with
  | Ok run =>
      match to_csv (final run) OUTPUT_PATH (files w) with
      | Complete =>
          (Some (final run),
           {| files := <[OUTPUT_PATH := csv_text (final run)]> (files w);
              stderr := stderr w; np_random := np_random w |})
      | Failed e partial =>
          (None,
           {| files := match partial with
                       | Some f => <[OUTPUT_PATH := f]> (files w)
                       | None => files w
                       end;
              stderr := stderr w ++ ["Error: " +:+ str_exc e];
              np_random := np_random w |})
      end
  | Raise e =>
      (None,
       {| files := files w;
          stderr := stderr w ++ ["Error: " +:+ str_exc e];
          np_random := np_random w |})
  end.
End orchestrator.

(** ** A concrete generator and a concrete file format

    Stand-ins that satisfy the two interfaces, to run the definitions on
    examples: a counter as generator state, and files that hold the table
    they were written from. *)

Definition counter_randint (st : Z) (n : nat) : nat * Z :=
  (Z.to_nat (st `mod` Z.of_nat n), st + 1).

Definition counter_RandomState (seed : Z) : result Z :=
  if decide (0 ≤ seed < 2 ^ 32) then Ok seed
  else Raise (ValueError "Seed must be between 0 and 2**32 - 1").

(** A file: a table to read, a table that was written, bytes that are
    not UTF-8, or an empty file that cannot be written. *)
Inductive MemFile :=
| CsvIn (frame : RawFrame)
| CsvOut (df : DataFrame)
| Garbled
| ReadOnly.

Definition mem_read_csv (f : option MemFile) : result RawFrame :=
  match f with
  | None => Raise (OSError "No such file or directory")
  | Some (CsvIn frame) => Ok frame
  | Some (CsvOut df) =>
      Ok (Frame ((λ r, {| raw_Echipa := Echipa r; raw_Optiuni := Optiuni r |}) <$> df))
  | Some Garbled => Raise (ValueError "invalid start byte")
  | Some ReadOnly => Raise (ValueError "No columns to parse from file")
  end.

(** Writing fails on a file that is read-only. *)
Definition mem_to_csv (df : DataFrame) (path : string) (fs : gmap string MemFile)
  : Written MemFile :=
  match fs !! path with
  | Some ReadOnly => Failed (OSError "Permission denied") None
  | _ => Complete
  end.

Lemma counter_RandomState_valid seed :
  0 ≤ seed < 2 ^ 32 → ∃ st, counter_RandomState seed = Ok st.
Proof.
  intros Hseed. exists seed. unfold counter_RandomState.
  destruct (decide (0 ≤ seed < 2 ^ 32)); [reflexivity | contradiction].
Qed.

Lemma counter_randint_range (st : Z) (n : nat) :
  (0 < n)%nat → ((counter_randint st n).1 < n)%nat.
Proof.
  intros Hn. unfold counter_randint. simpl.
  pose proof (Z.mod_pos_bound st (Z.of_nat n)). lia.
Qed.

Definition counter_gen : RandomGen :=
  {| rng_state := Z;
     RandomState := counter_RandomState;
     randint := counter_randint;
     RandomState_valid := counter_RandomState_valid;
     randint_range := counter_randint_range |}.

Definition mem_csv : CsvIO :=
  {| FileContent := MemFile;
     read_csv := mem_read_csv;
     csv_text := CsvOut;
     to_csv := mem_to_csv;
     read_csv_missing := ex_intro _ (OSError "No such file or directory") eq_refl |}.

Definition team (name optiuni : string) : RawRow :=
  {| raw_Echipa := Some name; raw_Optiuni := Some optiuni |}.

(** * Properties *)

(** ** Strings *)

Lemma split_not_nil sep s : Py.split sep s ≠ [].
Proof.
  destruct s as [|a s]; simpl; [done|].
  destruct (Ascii.eqb a sep); [done|]. by destruct (Py.split sep s).
Qed.

Lemma partition_prefix sep s : String.prefix (Py.partition sep s).1 s = true.
Proof.
  induction s as [|a s IH]; simpl; [done|].
  destruct (Ascii.eqb a sep); simpl; [done|].
  destruct (Py.partition sep s) as [h t]; simpl in *.
  destruct (ascii_dec a a); [done | congruence].
Qed.

Lemma before_hyphen_fst s : before_hyphen s = (Py.partition "-"%char s).1.
Proof.
  unfold before_hyphen, Py.split_n1.
  by destruct (Py.partition "-"%char s) as [h [t|]].
Qed.

Lemma before_hyphen_startswith s : Py.startswith s (before_hyphen s) = true.
Proof. rewrite before_hyphen_fst. apply partition_prefix. Qed.

Lemma before_hyphen_empty : before_hyphen "" = "".
Proof. reflexivity. Qed.

Lemma truthy_true s : Py.truthy s = true ↔ s ≠ "".
Proof.
  unfold Py.truthy. rewrite negb_true_iff. apply String.eqb_neq.
Qed.

Lemma truthy_false s : Py.truthy s = false ↔ s = "".
Proof.
  unfold Py.truthy. rewrite negb_false_iff. apply String.eqb_eq.
Qed.

Lemma before_hyphen_truthy s : before_hyphen s ≠ "" → Py.truthy s = true.
Proof.
  intros Hne. apply truthy_true. intros ->. by apply Hne.
Qed.

Lemma contains_remove_char c s : Py.contains c (Py.remove_char c s) = false.
Proof.
  induction s as [|a s IH]; simpl; [done|].
  destruct (Ascii.eqb a c) eqn:Hac; simpl; [done|]. by rewrite Hac.
Qed.

Lemma contains_split c sep s piece :
  Py.contains c s = false → piece ∈ Py.split sep s → Py.contains c piece = false.
Proof.
  revert piece. induction s as [|a s IH]; simpl; intros piece Hc Hin.
  - apply list_elem_of_singleton in Hin. by subst.
  - apply orb_false_iff in Hc as [Ha Hs].
    destruct (Ascii.eqb a sep).
    + apply elem_of_cons in Hin as [->|Hin]; [done | by apply IH].
    + destruct (Py.split sep s) as [|h t] eqn:Hsplit.
      * apply list_elem_of_singleton in Hin. subst. simpl. by rewrite Ha.
      * apply elem_of_cons in Hin as [->|Hin].
        -- simpl. rewrite Ha. simpl. apply IH; [done | left].
        -- apply IH; [done | by right].
Qed.

(** ** The preprocessor *)

Lemma nonempty_cons x l :
  nonempty (x :: l) = if decide (x = "") then nonempty l else x :: nonempty l.
Proof.
  unfold nonempty. rewrite filter_cons.
  destruct (decide (x = "")) as [->|Hx].
  - rewrite decide_False; [done | by intros Hc; apply Hc].
  - by rewrite decide_True.
Qed.

Lemma nonempty_nil : nonempty [] = [].
Proof. reflexivity. Qed.

Lemma first_occurrences_cons seen x l :
  first_occurrences seen (x :: l) =
  if decide (x ∈ seen) then first_occurrences seen l
  else x :: first_occurrences (x :: seen) l.
Proof. reflexivity. Qed.

Ltac list_cases :=
  repeat first
    [ rewrite nonempty_cons | rewrite nonempty_nil
    | rewrite first_occurrences_cons
    | progress (cbn [first_occurrences])
    | case_decide; simplify_eq
    | match goal with
      | H : _ ∈ _ :: _ |- _ => apply elem_of_cons in H as [?|?]; simplify_eq
      | H : _ ∈ [] |- _ => by apply not_elem_of_nil in H
      | H : ¬ (_ ∈ _ :: _) |- _ => rewrite not_elem_of_cons in H; destruct H
      end ].

Lemma dedup_domains_first_occurrences t1 t2 t3 :
  let '(x1, x2, x3) := dedup_domains t1 t2 t3 in
  x1 = t1 ∧
  (x3 ≠ "" → x2 ≠ "") ∧
  nonempty [x1; x2; x3] = first_occurrences [] (nonempty [t1; t2; t3]).
Proof.
  unfold dedup_domains.
  repeat case_bool_decide; cbn [orb]; (split; [done|]); (split; [congruence|]).
  all: list_cases; try done.
Qed.

Lemma dedup_domains_left_packed t1 t2 t3 :
  (t1 = "" → t2 = "" ∧ t3 = "") →
  let '(x1, x2, x3) := dedup_domains t1 t2 t3 in
  left_packed [x1; x2; x3].
Proof.
  intros Hfirst.
  pose proof (dedup_domains_first_occurrences t1 t2 t3) as Hd.
  destruct (dedup_domains t1 t2 t3) as [[x1 x2] x3].
  destruct Hd as (-> & H32 & Hocc).
  assert (t1 = "" → x2 = "" ∧ x3 = "") as Hall.
  { intros ->. destruct (Hfirst eq_refl) as [-> ->].
    revert Hocc. rewrite !nonempty_cons, !nonempty_nil.
    repeat case_decide; simplify_eq; done. }
  intros i j s Hij Hi Hj.
  destruct i as [|[|[|i]]], j as [|[|[|j]]]; simpl in *; simplify_eq; try lia.
  - by destruct Hall.
  - by destruct Hall.
  - destruct (decide (s = "")); [done|]. by destruct H32.
Qed.

Lemma first_occurrences_spec seen l :
  NoDup (first_occurrences seen l) ∧
  ∀ x, x ∈ first_occurrences seen l ↔ x ∈ l ∧ x ∉ seen.
Proof.
  revert seen. induction l as [|y l IH]; intros seen; simpl.
  - split; [constructor | set_solver].
  - case_decide.
    + destruct (IH seen) as [Hnd Hin]. split; [done|].
      intros x. rewrite Hin. set_solver.
    + destruct (IH (y :: seen)) as [Hnd Hin]. split.
      * constructor; [|done]. rewrite Hin. set_solver.
      * intros x. rewrite elem_of_cons, Hin. clear IH Hin Hnd.
        rewrite !elem_of_cons.
        destruct (decide (x = y)) as [->|]; naive_solver.
Qed.

Lemma prefs_preprocess_row raw :
  let '(x1, x2, x3) :=
    dedup_domains (before_hyphen (domains_split 0 (options_clean (raw_Optiuni raw))))
                  (before_hyphen (domains_split 1 (options_clean (raw_Optiuni raw))))
                  (before_hyphen (domains_split 2 (options_clean (raw_Optiuni raw)))) in
  prefs (preprocess_row raw) = [x1; x2; x3].
Proof.
  unfold prefs, preprocess_row.
  by destruct (dedup_domains _ _ _) as [[x1 x2] x3].
Qed.

(** C4, as amended: when the first domain token of a raw preference string
    is non-empty (or all three tokens are empty), the deduplicated
    preferences [d1, d2, d3] are left-packed, free of duplicates among the
    filled slots, at most three, and list the distinct non-empty tokens in
    the order of their first occurrence. *)
Theorem dedup_policy_left_packed (echipa optiuni : option string) :
  (tokens optiuni !! 0%nat = Some "" → nonempty (tokens optiuni) = []) →
  let r := preprocess_row {| raw_Echipa := echipa; raw_Optiuni := optiuni |} in
  left_packed (prefs r) ∧
  NoDup (nonempty (prefs r)) ∧
  (length (nonempty (prefs r)) ≤ 3)%nat ∧
  nonempty (prefs r) = first_occurrences [] (nonempty (tokens optiuni)).
Proof.
  intros Hfirst r. subst r.
  pose proof (prefs_preprocess_row {| raw_Echipa := echipa; raw_Optiuni := optiuni |}) as Hp.
  simpl in Hp. unfold tokens in *.
  set (t1 := before_hyphen (domains_split 0 (options_clean optiuni))) in *.
  set (t2 := before_hyphen (domains_split 1 (options_clean optiuni))) in *.
  set (t3 := before_hyphen (domains_split 2 (options_clean optiuni))) in *.
  pose proof (dedup_domains_first_occurrences t1 t2 t3) as Hocc.
  pose proof (dedup_domains_left_packed t1 t2 t3) as Hlp.
  destruct (dedup_domains t1 t2 t3) as [[x1 x2] x3].
  rewrite Hp. destruct Hocc as (_ & _ & Hocc).
  split; [|split; [|split]].
  - apply Hlp. intros Ht1. simpl in Hfirst. rewrite Ht1 in Hfirst.
    specialize (Hfirst eq_refl). revert Hfirst.
    rewrite !nonempty_cons, !nonempty_nil.
    repeat case_decide; simplify_eq; done.
  - rewrite Hocc. apply first_occurrences_spec.
  - rewrite !nonempty_cons, !nonempty_nil. repeat case_decide; simpl; lia.
  - done.
Qed.

(** The policy on the spec's example: preferences [A, A, B] become
    [A, B]. *)
Lemma dedup_policy_left_packed_witness :
  prefs (preprocess_row (team "1-T" "A-x, A-y, B-z")) = ["A"; "B"; ""] ∧
  left_packed (prefs (preprocess_row (team "1-T" "A-x, A-y, B-z"))) ∧
  nonempty (prefs (preprocess_row (team "1-T" "A-x, A-y, B-z"))) = ["A"; "B"].
Proof.
  split; [reflexivity|].
  pose proof (dedup_policy_left_packed (Some "1-T") (Some "A-x, A-y, B-z")) as Hth.
  destruct Hth as (Hlp & _ & _ & Hocc); [by vm_compute|].
  split; [exact Hlp|]. etrans; [exact Hocc | reflexivity].
Defined.

(** C4, as stated, fails: a preference string whose first item has no
    domain keeps its empty first slot in front of the filled ones. *)
Lemma dedup_policy_not_left_packed :
  prefs (preprocess_row (team "1-T" ",B-y,C-z")) = [""; "B"; "C"] ∧
  ¬ left_packed (prefs (preprocess_row (team "1-T" ",B-y,C-z"))).
Proof.
  split; [reflexivity|].
  intros Hlp. specialize (Hlp 0%nat 1%nat "B").
  discriminate Hlp; [lia | reflexivity | reflexivity].
Qed.
(** ** groupby *)

Section groupby_facts.
Context {A K V : Type} `{EqDecision K}.
Context (le : relation K) `{∀ x y, Decision (le x y)}.
Implicit Types (key : A → option K) (val : A → V) (l : list A).

Lemma groupby_keys key val l :
  (groupby le key val l).*1 = merge_sort le (remove_dups (omap key l)).
Proof.
  unfold groupby. rewrite <- list_fmap_compose.
  rewrite <- (list_fmap_id (merge_sort _ _)) at 2.
  by apply list_fmap_ext.
Qed.

Lemma NoDup_groupby_keys key val l : NoDup (groupby le key val l).*1.
Proof.
  rewrite groupby_keys, merge_sort_Permutation. apply NoDup_remove_dups.
Qed.

Lemma elem_of_groupby_keys key val l k :
  k ∈ (groupby le key val l).*1 ↔ ∃ a, a ∈ l ∧ key a = Some k.
Proof.
  rewrite groupby_keys, merge_sort_Permutation, elem_of_remove_dups.
  apply list_elem_of_omap.
Qed.

Lemma elem_of_groupby key val l k vs :
  (k, vs) ∈ groupby le key val l ↔
  (∃ a, a ∈ l ∧ key a = Some k) ∧
  vs = val <$> filter (λ a, key a = Some k) l.
Proof.
  rewrite <- elem_of_groupby_keys with (val := val).
  unfold groupby at 1. rewrite list_elem_of_fmap. split.
  - intros (k' & [= -> ->] & Hk). split; [|done].
    rewrite groupby_keys. done.
  - intros [Hk ->]. exists k. split; [done|]. by rewrite groupby_keys in Hk.
Qed.
End groupby_facts.

(** ** The dictionary of claimed domains *)

(** Some allocated team of group [g] holds domain [d]. *)
Definition held (df : DataFrame) (g d : string) : Prop :=
  ∃ r, r ∈ df ∧ grupa r = Some g ∧ alocare r = d ∧ d ≠ "".

Lemma is_allocated_true r : is_allocated r = true ↔ alocare r ≠ "".
Proof. unfold is_allocated. apply bool_decide_eq_true. Qed.

Lemma foldl_insert_notin {V W} (f : V → W) (l : list (string * V))
    (m : gmap string W) k :
  k ∉ l.*1 →
  foldl (λ d '(g, v), <[g := f v]> d) m l !! k = m !! k.
Proof.
  revert m. induction l as [|[g v] l IH]; intros m Hk; simpl; [done|].
  apply not_elem_of_cons in Hk as [Hne Hk].
  rewrite IH by done. by rewrite lookup_insert_ne.
Qed.

Lemma foldl_insert_in {V W} (f : V → W) (l : list (string * V))
    (m : gmap string W) k v :
  NoDup l.*1 → (k, v) ∈ l →
  foldl (λ d '(g, v), <[g := f v]> d) m l !! k = Some (f v).
Proof.
  revert m. induction l as [|[g w] l IH]; intros m Hnd Hin; simpl.
  - by apply elem_of_nil in Hin.
  - apply NoDup_cons in Hnd as [Hg Hnd].
    apply elem_of_cons in Hin as [[= -> ->]|Hin].
    + rewrite foldl_insert_notin by done. by rewrite lookup_insert_eq.
    + by apply IH.
Qed.

Lemma build_allocated_dict_lookup df g :
  let l := filter (λ r, is_allocated r) df in
  build_allocated_dict df !! g =
  if decide (Exists (λ r, grupa r = Some g) l)
  then Some (list_to_set (alocare <$> filter (λ r, grupa r = Some g) l))
  else None.
Proof.
  intros l. unfold build_allocated_dict. fold l.
  case_decide as Hd; rewrite Exists_exists in Hd.
  - apply (foldl_insert_in list_to_set); [apply NoDup_groupby_keys|].
    by apply elem_of_groupby.
  - rewrite (foldl_insert_notin list_to_set); [done|].
    by rewrite elem_of_groupby_keys.
Qed.

Lemma claims_build_allocated_dict df g d :
  claims (build_allocated_dict df) g d = true ↔ held df g d.
Proof.
  unfold claims. rewrite build_allocated_dict_lookup.
  case_decide as Hd.
  - rewrite bool_decide_eq_true, elem_of_list_to_set, list_elem_of_fmap.
    split.
    + intros (r & -> & Hr). apply list_elem_of_filter in Hr as [Hg Hr].
      apply list_elem_of_filter in Hr as [Hal Hr].
      apply Is_true_true, is_allocated_true in Hal. by exists r.
    + intros (r & Hr & Hg & Hal & Hne). exists r. split; [done|].
      apply list_elem_of_filter. split; [done|].
      apply list_elem_of_filter. split; [|done].
      apply Is_true_true, is_allocated_true. by rewrite Hal.
  - split; [done|]. intros (r & Hr & Hg & Hal & Hne). destruct Hd.
    apply Exists_exists. exists r. split; [|done].
    apply list_elem_of_filter. split; [|done].
    apply Is_true_true, is_allocated_true. by rewrite Hal.
Qed.

Lemma claims_empty g d : claims ∅ g d = false.
Proof. unfold claims. by rewrite lookup_empty. Qed.

Lemma existsb_false_Forall {A} (f : A → bool) (l : list A) :
  existsb f l = false ↔ ∀ x, x ∈ l → f x = false.
Proof.
  induction l as [|a l IH]; simpl.
  - split; [|done]. intros _ x Hx. by apply elem_of_nil in Hx.
  - rewrite orb_false_iff, IH. split.
    + intros [Ha Hl] x Hx. apply elem_of_cons in Hx as [->|Hx]; auto.
    + intros Hall. split; [apply Hall; left | intros x Hx; apply Hall; by right].
Qed.

(** The dictionary [allocate_round] starts its loop with. *)
Lemma claims_initial_dict df g d :
  claims (if existsb is_allocated df then build_allocated_dict df else ∅) g d = true
  ↔ held df g d.
Proof.
  destruct (existsb is_allocated df) eqn:Hex.
  - apply claims_build_allocated_dict.
  - rewrite claims_empty. split; [done|].
    intros (r & Hr & Hg & Hal & Hne).
    rewrite existsb_false_Forall in Hex. specialize (Hex r Hr).
    assert (is_allocated r = true) as Ht by (apply is_allocated_true; by rewrite Hal).
    congruence.
Qed.

Lemma claims_add_claim dict g d g' d' :
  claims (add_claim dict g d) g' d' = true ↔
  claims dict g' d' = true ∨ (g' = g ∧ d' = d).
Proof.
  unfold claims, add_claim.
  destruct (decide (g' = g)) as [->|Hne].
  - destruct (dict !! g) as [s|] eqn:Hs; rewrite lookup_insert_eq;
      rewrite !bool_decide_eq_true.
    + rewrite elem_of_union, elem_of_singleton. naive_solver.
    + rewrite elem_of_singleton. naive_solver.
  - destruct (dict !! g) as [s|] eqn:Hs; rewrite lookup_insert_ne by done;
      naive_solver.
Qed.

(** ** The partitions of a round *)

(** The partition a row belongs to: its group and requested domain, when
    the row is a candidate that has a group. *)
Definition rowkey (c : DomainCol) (df : DataFrame) (i : nat)
  : option (string * string) :=
  r ← df !! i;
  if is_candidate c r then g ← grupa r; Some (g, get_col c r) else None.

Lemma rowkey_Some c df i g d :
  rowkey c df i = Some (g, d) ↔
  ∃ r, df !! i = Some r ∧ is_candidate c r = true ∧ grupa r = Some g ∧ get_col c r = d.
Proof.
  unfold rowkey. destruct (df !! i) as [r|]; simpl.
  - destruct (is_candidate c r) eqn:Hc.
    + destruct (grupa r) as [g'|] eqn:Hg; simpl.
      * split; [intros [= <- <-]; by exists r|].
        intros (r' & ? & ? & ? & ?). by simplify_eq.
      * split; [done|]. intros (r' & ? & ? & ? & ?). by simplify_eq.
    + split; [done|]. intros (r' & ? & ? & ? & ?). simplify_eq. congruence.
  - split; [done|]. intros (r' & ? & _). done.
Qed.

Lemma candidate_key_rowkey c df i r k :
  df !! i = Some r →
  (Is_true (is_candidate c r) ∧ (grupa r ≫= λ g, Some (g, get_col c r)) = Some k)
  ↔ rowkey c df i = Some k.
Proof.
  intros Hi. unfold rowkey. rewrite Hi. simpl.
  destruct (is_candidate c r); simpl; [|split; [intros [[] _] | done]].
  split; [by intros [_ ?] | done].
Qed.

Lemma elem_of_partitions_keys c df k :
  k ∈ (partitions c df).*1 ↔ ∃ i, rowkey c df i = Some k.
Proof.
  unfold partitions. rewrite elem_of_groupby_keys. split.
  - intros ([i r] & Hin & Hk). apply list_elem_of_filter in Hin as [Hc Hin].
    apply elem_of_lookup_imap in Hin as (j & r' & Heq & Hj). simplify_eq.
    exists j. by apply (candidate_key_rowkey c df j r').
  - intros (i & Hi). pose proof Hi as Hi'. destruct k as [g d].
    apply rowkey_Some in Hi' as (r & Hr & _).
    destruct (proj2 (candidate_key_rowkey c df i r _ Hr) Hi) as [Hc Hk].
    exists (i, r). split; [|done]. apply list_elem_of_filter. split; [done|].
    by apply elem_of_lookup_imap_2.
Qed.

Lemma elem_of_partitions c df k members :
  (k, members) ∈ partitions c df →
  members ≠ [] ∧ ∀ i, i ∈ members ↔ rowkey c df i = Some k.
Proof.
  intros Hin.
  assert (∀ i, i ∈ members ↔ rowkey c df i = Some k) as Hmem.
  { unfold partitions in Hin. apply elem_of_groupby in Hin as [_ ->].
    intros i. rewrite list_elem_of_fmap. split.
    - intros ([j r] & -> & Hf). apply list_elem_of_filter in Hf as [Hk Hf].
      apply list_elem_of_filter in Hf as [Hc Hf].
      apply elem_of_lookup_imap in Hf as (j' & r' & Heq & Hj). simplify_eq.
      by apply (candidate_key_rowkey c df j' r').
    - intros Hi. pose proof Hi as Hi'. destruct k as [g d].
      apply rowkey_Some in Hi' as (r & Hr & _).
      destruct (proj2 (candidate_key_rowkey c df i r _ Hr) Hi) as [Hc Hk].
      exists (i, r). split; [done|].
      apply list_elem_of_filter. split; [done|].
      apply list_elem_of_filter. split; [done|].
      by apply elem_of_lookup_imap_2. }
  split; [|done].
  assert (k ∈ (partitions c df).*1) as Hk.
  { apply list_elem_of_fmap. by exists (k, members). }
  apply elem_of_partitions_keys in Hk as [i Hi].
  apply Hmem in Hi. intros ->. by apply elem_of_nil in Hi.
Qed.

Lemma NoDup_partitions_keys c df : NoDup (partitions c df).*1.
Proof. apply NoDup_groupby_keys. Qed.

(** ** The loop of allocate_round *)

Section loop.
Context `{RandomGen}.
Context (dict0 : gmap string (gset string)).
Context (key : nat → option (string * string)).

Definition part_ok (part : (string * string) * list nat) : Prop :=
  part.2 ≠ [] ∧ ∀ i, i ∈ part.2 ↔ key i = Some part.1.

(** What holds of the loop variables once the partitions [done] have
    been visited. *)
Record loop_inv (done : list ((string * string) * list nat)) (st : LoopState)
  : Prop := {
  inv_claims : ∀ g d,
    claims (allocated_dict st) g d = true ↔
    claims dict0 g d = true ∨ (g, d) ∈ done.*1;
  inv_picks :
    Forall2 (λ i d, ∃ g, key i = Some (g, d) ∧ (g, d) ∈ done.*1 ∧
                         claims dict0 g d = false)
            (team_indices st) (allocated_domains st);
  inv_nodup : NoDup (key <$> team_indices st);
  inv_complete : ∀ g d,
    (g, d) ∈ done.*1 → claims dict0 g d = false →
    ∃ i, i ∈ team_indices st ∧ key i = Some (g, d)
}.

Lemma select_team_in g members :
  members ≠ [] → (select_team g members).1 ∈ members.
Proof.
  intros Hne. unfold select_team. case_decide as Hlen.
  - destruct members as [|i [|j l]]; simplify_eq/=. left.
  - pose proof (randint_range g (length members)) as Hr.
    destruct (randint g (length members)) as [k g'] eqn:Hk. simpl in *.
    assert (k < length members)%nat as Hlt.
    { apply Hr. destruct members; [done | simpl; lia]. }
    apply lookup_lt_is_Some in Hlt as [i Hi]. rewrite Hi. simpl.
    by apply list_elem_of_lookup_2 in Hi.
Qed.

(** A partition of one team is taken without a draw. *)
Lemma select_team_singleton g i : select_team g [i] = (i, g).
Proof. reflexivity. Qed.

Lemma loop_inv_step done st part :
  loop_inv done st → part_ok part → part.1 ∉ done.*1 →
  loop_inv (done ++ [part]) (allocate_step st part).
Proof.
  intros [Hcl Hpk Hnd Hco] [Hne Hmem] Hfresh.
  destruct part as [[g d] members]. simpl in *.
  unfold allocate_step.
  destruct (claims (allocated_dict st) g d) eqn:Hclaim.
  - (* the group already holds the domain *)
    assert (claims dict0 g d = true) as Hc0.
    { apply Hcl in Hclaim as [?|?]; done. }
    split.
    + intros g' d'. rewrite Hcl, fmap_app, elem_of_app. simpl.
      rewrite list_elem_of_singleton. split; [naive_solver|].
      intros [?|[?|[= -> ->]]]; auto.
    + eapply Forall2_impl; [exact Hpk|]. simpl.
      intros i d' (g' & ? & ? & ?). exists g'. rewrite fmap_app, elem_of_app. auto.
    + done.
    + intros g' d'. rewrite fmap_app, elem_of_app. simpl.
      rewrite list_elem_of_singleton. intros [?|[= -> ->]] Hc; [auto | congruence].
  - (* a team of the partition is taken *)
    assert (claims dict0 g d = false) as Hc0.
    { destruct (claims dict0 g d) eqn:Hc0; [|done].
      assert (claims (allocated_dict st) g d = true) by (apply Hcl; auto).
      congruence. }
    pose proof (select_team_in (rng st) members Hne) as Hsel.
    destruct (select_team (rng st) members) as [idx g'] eqn:Hs. simpl in *.
    apply Hmem in Hsel.
    assert (Some (g, d) ∉ key <$> team_indices st) as Hnew.
    { intros (i & Hi & Hin)%list_elem_of_fmap.
      apply list_elem_of_lookup_1 in Hin as [n Hn].
      destruct (Forall2_lookup_l _ _ _ n i Hpk Hn) as (d' & _ & g'' & Hk & Hdone & _).
      rewrite Hk in Hi. by simplify_eq. }
    split; simpl.
    + intros g1 d1. rewrite claims_add_claim, Hcl, fmap_app, elem_of_app. simpl.
      rewrite list_elem_of_singleton. naive_solver.
    + apply Forall2_app.
      * eapply Forall2_impl; [exact Hpk|]. simpl.
        intros i d' (g1 & ? & ? & ?). exists g1. rewrite fmap_app, elem_of_app. auto.
      * constructor; [|constructor]. exists g.
        rewrite fmap_app, elem_of_app. simpl. rewrite list_elem_of_singleton. auto.
    + rewrite fmap_app. simpl. apply NoDup_app. split; [done|]. split.
      * intros x Hx Hx'. apply list_elem_of_singleton in Hx'. subst x.
        rewrite Hsel in Hx. done.
      * apply NoDup_singleton.
    + intros g1 d1. rewrite fmap_app, elem_of_app. simpl.
      rewrite list_elem_of_singleton. intros [Hd|[= -> ->]] Hc.
      * destruct (Hco g1 d1 Hd Hc) as (i & Hi & Hk). exists i.
        rewrite elem_of_app. auto.
      * exists idx. rewrite elem_of_app, list_elem_of_singleton. auto.
Qed.
End loop.

Lemma NoDup_fmap_eq {A B} (f : A → B) (l : list A) x y :
  NoDup (f <$> l) → x ∈ l → y ∈ l → f x = f y → x = y.
Proof.
  induction l as [|a l IH]; simpl; intros Hnd Hx Hy Hf.
  - by apply elem_of_nil in Hx.
  - apply NoDup_cons in Hnd as [Ha Hnd].
    apply elem_of_cons in Hx as [->|Hx]; apply elem_of_cons in Hy as [->|Hy].
    + done.
    + destruct Ha. rewrite Hf. by apply list_elem_of_fmap_2.
    + destruct Ha. rewrite <- Hf. by apply list_elem_of_fmap_2.
    + by apply IH.
Qed.

Section loop_result.
Context `{RandomGen}.

Lemma loop_inv_foldl dict0 key g parts :
  Forall (part_ok key) parts → NoDup parts.*1 →
  loop_inv dict0 key parts
    (foldl allocate_step
       {| allocated_dict := dict0; rng := g;
          team_indices := []; allocated_domains := [] |} parts).
Proof.
  induction parts as [|part parts IH] using rev_ind; intros Hok Hnd.
  - simpl. split; simpl.
    + intros g' d'. rewrite elem_of_nil. naive_solver.
    + constructor.
    + constructor.
    + intros g' d' Hin. by apply elem_of_nil in Hin.
  - rewrite foldl_snoc. apply Forall_app in Hok as [Hok Hpart].
    rewrite Forall_singleton in Hpart.
    rewrite fmap_app in Hnd. apply NoDup_app in Hnd as (Hnd & Hfresh & _).
    apply loop_inv_step; [by apply IH | done |].
    intros Hin. apply (Hfresh _ Hin). simpl. left.
Qed.
End loop_result.

(** ** Writing the allocations into the table *)

Lemma loc_set_alocare_notin idxs vals df i :
  i ∉ idxs → loc_set_alocare idxs vals df !! i = df !! i.
Proof.
  unfold loc_set_alocare. revert vals df.
  induction idxs as [|j idxs IH]; intros vals df Hi; [done|].
  apply not_elem_of_cons in Hi as [Hne Hi].
  destruct vals as [|v vals]; simpl; [done|].
  rewrite IH by done. by apply list_lookup_alter_ne.
Qed.

Lemma loc_set_alocare_in idxs vals df i v n :
  NoDup idxs → idxs !! n = Some i → vals !! n = Some v →
  loc_set_alocare idxs vals df !! i = set_alocare v <$> df !! i.
Proof.
  unfold loc_set_alocare. revert vals df n.
  induction idxs as [|j idxs IH]; intros vals df n Hnd Hi Hv; [done|].
  apply NoDup_cons in Hnd as [Hj Hnd].
  destruct vals as [|w vals]; [done|]. cbn [zip zip_with foldl].
  destruct n as [|n]; cbn in Hi, Hv; simplify_eq.
  - fold (loc_set_alocare idxs vals (alter (set_alocare v) i df)).
    rewrite loc_set_alocare_notin by done. apply list_lookup_alter_eq.
  - rewrite (IH _ _ n) by done.
    rewrite list_lookup_alter_ne; [done|].
    intros ->. apply Hj. by eapply list_elem_of_lookup_2.
Qed.

Lemma loc_set_runda_lookup idxs v df i :
  loc_set_runda idxs v df !! i =
  (λ r, if decide (i ∈ idxs) then set_runda v r else r) <$> df !! i.
Proof.
  unfold loc_set_runda. revert df.
  induction idxs as [|j idxs IH]; intros df; cbn [foldl].
  - destruct (df !! i) as [r|]; [|done]. cbn [fmap option_fmap option_map].
    rewrite decide_False; [done | apply not_elem_of_nil].
  - rewrite IH. destruct (decide (j = i)) as [->|Hne].
    + rewrite list_lookup_alter_eq. destruct (df !! i) as [r|]; [|done].
      cbn [fmap option_fmap option_map].
      rewrite (decide_True (P := i ∈ i :: idxs)) by left.
      by case_decide.
    + rewrite list_lookup_alter_ne by done.
      destruct (df !! i) as [r|]; [|done].
      cbn [fmap option_fmap option_map].
      destruct (decide (i ∈ idxs)).
      * rewrite decide_True; [done | by right].
      * rewrite decide_False; [done|].
        rewrite not_elem_of_cons. split; [congruence | done].
Qed.

(** ** What one round does *)

(** The row of a team that is allocated its requested domain. *)
Definition allocate_row (c : DomainCol) (round_num : Z) (r : Row) : Row :=
  set_runda (pretty round_num) (set_alocare (get_col c r) r).

(** A round on [df] that returns [(df', n)], in terms of the rows [picked]
    that it allocates. *)
Record round_spec (c : DomainCol) (round_num : Z) (df df' : DataFrame) (n : nat)
    (picked : list nat) : Prop := {
  rs_nodup : NoDup picked;
  rs_count : n = length picked;
  rs_picked : ∀ i, i ∈ picked →
    ∃ r g, df !! i = Some r ∧ is_candidate c r = true ∧ grupa r = Some g ∧
           ¬ held df g (get_col c r);
  rs_unique : ∀ i j k, i ∈ picked → j ∈ picked →
    rowkey c df i = Some k → rowkey c df j = Some k → i = j;
  rs_complete : ∀ i g d, rowkey c df i = Some (g, d) → ¬ held df g d →
    ∃ j, j ∈ picked ∧ rowkey c df j = Some (g, d);
  rs_rows : ∀ i,
    df' !! i =
    (λ r, if decide (i ∈ picked) then allocate_row c round_num r else r) <$> df !! i
}.

Section round.
Context `{RandomGen}.

Lemma allocate_from_spec g df c round_num :
  ∃ picked,
    round_spec c round_num df (allocate_from g df c round_num).1
               (allocate_from g df c round_num).2 picked.
Proof.
  unfold allocate_from.
  set (dict0 := if existsb is_allocated df then build_allocated_dict df else ∅).
  set (st := foldl allocate_step _ _).
  assert (loop_inv dict0 (rowkey c df) (partitions c df) st) as [Hcl Hpk Hnd Hco].
  { apply loop_inv_foldl; [|apply NoDup_partitions_keys].
    apply Forall_forall. intros [k members] Hin. by apply elem_of_partitions. }
  assert (∀ g d, claims dict0 g d = false ↔ ¬ held df g d) as Hheld.
  { intros g' d'. rewrite <- claims_initial_dict. fold dict0.
    destruct (claims dict0 g' d'); naive_solver. }
  assert (∀ i, i ∈ team_indices st →
            ∃ n r g, team_indices st !! n = Some i ∧
                     allocated_domains st !! n = Some (get_col c r) ∧
                     df !! i = Some r ∧ is_candidate c r = true ∧
                     grupa r = Some g ∧ ¬ held df g (get_col c r)) as Hpicked.
  { intros i Hi. apply list_elem_of_lookup_1 in Hi as [n Hn].
    destruct (Forall2_lookup_l _ _ _ n i Hpk Hn) as (d & Hd & g' & Hk & _ & Hc).
    apply rowkey_Some in Hk as (r & Hr & Hcand & Hg & <-).
    exists n, r, g'. by rewrite <- Hheld. }
  assert (NoDup (team_indices st)) as Hnodup by (by eapply NoDup_fmap_1).
  assert (∀ i,
    loc_set_runda (team_indices st) (pretty round_num)
      (loc_set_alocare (team_indices st) (allocated_domains st) df) !! i =
    (λ r, if decide (i ∈ team_indices st) then allocate_row c round_num r else r)
      <$> df !! i) as Hrows.
  { intros i. rewrite loc_set_runda_lookup.
    destruct (decide (i ∈ team_indices st)) as [Hi|Hi].
    - destruct (Hpicked i Hi) as (n & r & g' & Hn & Hd & Hr & _).
      rewrite (loc_set_alocare_in _ _ _ _ _ n Hnodup Hn Hd), Hr. done.
    - rewrite loc_set_alocare_notin by done. by destruct (df !! i). }
  exists (team_indices st). split.
  - done.
  - by destruct (team_indices st).
  - intros i Hi. destruct (Hpicked i Hi) as (n & r & g' & _ & _ & ?).
    by exists r, g'.
  - intros i j k Hi Hj Hki Hkj.
    apply (NoDup_fmap_eq (rowkey c df) (team_indices st)); [done..|congruence].
  - intros i g' d Hk Hn. apply Hco; [|by apply Hheld].
    apply elem_of_partitions_keys. by exists i.
  - intros i. destruct (team_indices st) as [|j idxs] eqn:Hidx.
    + cbn [fst]. destruct (df !! i) as [r|]; [|done].
      cbn [fmap option_fmap option_map].
      rewrite decide_False; [done | apply not_elem_of_nil].
    + apply Hrows.
Qed.

Lemma allocate_round_spec df c round_num df' n :
  allocate_round df c round_num = Ok (df', n) →
  ∃ picked, round_spec c round_num df df' n picked.
Proof.
  unfold allocate_round.
  destruct (existsb (is_candidate c) df) eqn:Hex; simpl.
  - destruct (RandomState (SEED + round_num)) as [g|e]; simpl; [|done].
    intros [= Heq]. pose proof (allocate_from_spec g df c round_num) as Hspec.
    rewrite Heq in Hspec. done.
  - intros [= <- <-]. exists []. split.
    + constructor.
    + done.
    + intros i Hi. by apply elem_of_nil in Hi.
    + intros i j k Hi. by apply elem_of_nil in Hi.
    + intros i g d Hk _. apply rowkey_Some in Hk as (r & Hr & Hc & _).
      rewrite existsb_false_Forall in Hex.
      rewrite (Hex r) in Hc; [done | by eapply list_elem_of_lookup_2].
    + intros i. destruct (df !! i) as [r|]; [|done].
      cbn [fmap option_fmap option_map].
      rewrite decide_False; [done | apply not_elem_of_nil].
Qed.

(** The rounds the orchestrator runs always have a generator. *)
Lemma allocate_round_total df c round_num :
  1 ≤ round_num ≤ 3 → ∃ df' n, allocate_round df c round_num = Ok (df', n).
Proof.
  intros Hr. unfold allocate_round.
  destruct (existsb (is_candidate c) df); simpl; [|by eexists _, _].
  destruct (RandomState_valid (SEED + round_num)) as [g ->].
  { unfold SEED. lia. }
  simpl. destruct (allocate_from g df c round_num). by eexists _, _.
Qed.
End round.

(** ** update_preferences *)

(** Everything of a row but its second and third preference is kept; the
    second preference changes only when preparing round 2, the third only
    when preparing round 2 or 3. *)
Definition same_except_prefs (round_num : Z) (r r' : Row) : Prop :=
  Echipa r' = Echipa r ∧ Optiuni r' = Optiuni r ∧ grupa r' = grupa r ∧
  d1 r' = d1 r ∧ domenii r' = domenii r ∧ alocare r' = alocare r ∧
  runda r' = runda r ∧ tema_proiect r' = tema_proiect r ∧
  (round_num ≠ 2 → d2 r' = d2 r) ∧
  (round_num ≠ 2 → round_num ≠ 3 → d3 r' = d3 r).

Lemma update_round2_frame dict r : same_except_prefs 2 r (update_round2 dict r).
Proof.
  unfold update_round2, same_except_prefs.
  destruct (grupa r ≫= _) as [claimed|]; [|by repeat split].
  destruct (bool_decide _); [|by repeat split].
  destruct (_ && _); by repeat split.
Qed.

Lemma update_round3_frame dict r : same_except_prefs 3 r (update_round3 dict r).
Proof.
  unfold update_round3, same_except_prefs.
  destruct (grupa r ≫= _) as [claimed|]; [|by repeat split].
  destruct (bool_decide _); by repeat split.
Qed.

Lemma same_except_prefs_refl round_num r : same_except_prefs round_num r r.
Proof. by repeat split. Qed.

Lemma Forall2_fmap_self {A} (R : A → A → Prop) (f : A → A) (l : list A) :
  (∀ x, R x (f x)) → Forall2 R l (f <$> l).
Proof. intros Hf. induction l; simpl; constructor; auto. Qed.

Lemma Forall2_self {A} (R : A → A → Prop) (l : list A) :
  (∀ x, R x x) → Forall2 R l l.
Proof. intros Hf. induction l; constructor; auto. Qed.

Lemma update_preferences_same_except (df : DataFrame) (round_num : Z) :
  Forall2 (same_except_prefs round_num) df (update_preferences df round_num).
Proof.
  unfold update_preferences.
  destruct (negb (existsb is_allocated df)).
  { apply Forall2_self, same_except_prefs_refl. }
  destruct (decide (round_num = 2)) as [->|H2].
  { apply Forall2_fmap_self, update_round2_frame. }
  destruct (decide (round_num = 3)) as [->|H3].
  { apply Forall2_fmap_self, update_round3_frame. }
  apply Forall2_self, same_except_prefs_refl.
Qed.

(** C9: [update_preferences] touches only the second and third preference
    when it prepares round 2 and only the third when it prepares round 3;
    team name, options, group, first preference, original preference list,
    allocated domain, round and theme of every row are those of the row
    before, row by row and in the same order, for every round number. *)
Theorem update_preferences_frame (df : DataFrame) (round_num : Z) :
  length (update_preferences df round_num) = length df ∧
  Forall2 (same_except_prefs round_num) df (update_preferences df round_num).
Proof.
  pose proof (update_preferences_same_except df round_num) as Hframe.
  split; [|done]. symmetry. by eapply Forall2_length.
Qed.

Lemma update_preferences_lookup df round_num i r :
  df !! i = Some r →
  ∃ r', update_preferences df round_num !! i = Some r' ∧
        same_except_prefs round_num r r'.
Proof.
  intros Hi.
  destruct (Forall2_lookup_l _ _ _ i r (update_preferences_same_except df round_num) Hi)
    as (r' & Hr' & Hsame).
  by exists r'.
Qed.

Lemma update_preferences_lookup_inv df round_num i r' :
  update_preferences df round_num !! i = Some r' →
  ∃ r, df !! i = Some r ∧ same_except_prefs round_num r r'.
Proof.
  intros Hi.
  destruct (Forall2_lookup_r _ _ _ i r' (update_preferences_same_except df round_num) Hi)
    as (r & Hr & Hsame).
  by exists r.
Qed.

(** *** The cascade *)

(** The team's group has allocations. *)
Definition group_has_allocations (df : DataFrame) (og : option string) : Prop :=
  ∃ g d, og = Some g ∧ held df g d.

(** [d] is in the claimed-domain set of the team's group. *)
Definition group_claims (df : DataFrame) (og : option string) (d : string) : Prop :=
  ∃ g, og = Some g ∧ held df g d.

(** §4.3, preparation of round 2, on one team. *)
Definition round2_prepared (df : DataFrame) (r r' : Row) : Prop :=
  (¬ group_has_allocations df (grupa r) → d2 r' = d2 r ∧ d3 r' = d3 r) ∧
  (group_has_allocations df (grupa r) → group_claims df (grupa r) (d2 r) →
   (d3 r ≠ "" ∧ ¬ group_claims df (grupa r) (d3 r) → d2 r' = d3 r ∧ d3 r' = "") ∧
   (¬ (d3 r ≠ "" ∧ ¬ group_claims df (grupa r) (d3 r)) → d2 r' = "" ∧ d3 r' = "")) ∧
  (group_has_allocations df (grupa r) → ¬ group_claims df (grupa r) (d2 r) →
   d2 r' = d2 r ∧ d3 r' = d3 r).

(** §4.3, preparation of round 3, on one team. *)
Definition round3_prepared (df : DataFrame) (r r' : Row) : Prop :=
  (group_has_allocations df (grupa r) ∧ group_claims df (grupa r) (d3 r) →
   d3 r' = "") ∧
  (¬ (group_has_allocations df (grupa r) ∧ group_claims df (grupa r) (d3 r)) →
   d3 r' = d3 r).

Lemma dict_lookup_Some df g s :
  build_allocated_dict df !! g = Some s →
  (∃ d, held df g d) ∧ ∀ d, d ∈ s ↔ held df g d.
Proof.
  intros Hs. split.
  - rewrite build_allocated_dict_lookup in Hs. case_decide as Hex; [|done].
    apply Exists_exists in Hex as (r & Hr & Hg).
    apply list_elem_of_filter in Hr as [Hal Hr].
    apply Is_true_true, is_allocated_true in Hal. by exists (alocare r), r.
  - intros d. rewrite <- claims_build_allocated_dict. unfold claims.
    rewrite Hs. by rewrite bool_decide_eq_true.
Qed.

Lemma dict_lookup_None df g d :
  build_allocated_dict df !! g = None → ¬ held df g d.
Proof.
  intros Hs Hheld. apply claims_build_allocated_dict in Hheld.
  unfold claims in Hheld. by rewrite Hs in Hheld.
Qed.

Lemma group_lookup_Some df og s :
  og ≫= (build_allocated_dict df !!.) = Some s →
  group_has_allocations df og ∧ ∀ d, d ∈ s ↔ group_claims df og d.
Proof.
  destruct og as [g|]; simpl; [|done]. intros Hs.
  destruct (dict_lookup_Some df g s Hs) as [[d Hd] Hin]. split.
  - by exists g, d.
  - intros d'. rewrite Hin. unfold group_claims. naive_solver.
Qed.

Lemma group_lookup_None df og :
  og ≫= (build_allocated_dict df !!.) = None → ¬ group_has_allocations df og.
Proof.
  intros Hs (g & d & -> & Hheld). simpl in Hs.
  by apply (dict_lookup_None df g d).
Qed.

Lemma no_allocations_no_group df og :
  existsb is_allocated df = false → ¬ group_has_allocations df og.
Proof.
  intros Hex (g & d & -> & r & Hr & _ & Hal & Hne).
  rewrite existsb_false_Forall in Hex. specialize (Hex r Hr).
  assert (is_allocated r = true) by (apply is_allocated_true; by rewrite Hal).
  congruence.
Qed.

Lemma group_claims_has df og d :
  group_claims df og d → group_has_allocations df og.
Proof. intros (g & -> & Hh). by exists g, d. Qed.

Lemma update_round2_prepared df r :
  round2_prepared df r (update_round2 (build_allocated_dict df) r).
Proof.
  unfold update_round2, round2_prepared.
  destruct (grupa r ≫= _) as [claimed|] eqn:Hlook.
  - destruct (group_lookup_Some _ _ _ Hlook) as [Hhas Hin].
    destruct (bool_decide (d2 r ∈ claimed)) eqn:Hd2.
    + apply bool_decide_eq_true in Hd2. apply Hin in Hd2.
      destruct (Py.truthy (d3 r) && bool_decide (d3 r ∉ claimed)) eqn:Hd3.
      * apply andb_true_iff in Hd3 as [Ht Hn].
        apply truthy_true in Ht. apply bool_decide_eq_true in Hn.
        rewrite Hin in Hn. simpl. intuition.
      * assert (¬ (d3 r ≠ "" ∧ ¬ group_claims df (grupa r) (d3 r))) as Hno.
        { intros [Hne Hnc]. apply andb_false_iff in Hd3 as [Ht|Hn].
          - by apply truthy_false in Ht.
          - apply bool_decide_eq_false in Hn. apply Hn. by rewrite Hin. }
        simpl. intuition.
    + apply bool_decide_eq_false in Hd2. rewrite Hin in Hd2.
      simpl. intuition.
  - apply group_lookup_None in Hlook. simpl. intuition.
Qed.

Lemma update_round3_prepared df r :
  round3_prepared df r (update_round3 (build_allocated_dict df) r).
Proof.
  unfold update_round3, round3_prepared.
  destruct (grupa r ≫= _) as [claimed|] eqn:Hlook.
  - destruct (group_lookup_Some _ _ _ Hlook) as [Hhas Hin].
    destruct (bool_decide (d3 r ∈ claimed)) eqn:Hd3.
    + apply bool_decide_eq_true in Hd3. apply Hin in Hd3. simpl. intuition.
    + apply bool_decide_eq_false in Hd3. rewrite Hin in Hd3. simpl. intuition.
  - apply group_lookup_None in Hlook. simpl. intuition.
Qed.

(** C6: the preparation of round 2 and of round 3 follows §4.3 on every
    team: with no allocation in the team's group the preferences stay; when
    the group holds the second preference, the third one is promoted if it
    is filled and free, and both are cleared otherwise; the third
    preference is cleared before round 3 exactly when the group holds
    it. *)
Theorem update_preferences_cascade (df : DataFrame) :
  Forall2 (round2_prepared df) df (update_preferences df 2) ∧
  Forall2 (round3_prepared df) df (update_preferences df 3).
Proof.
  unfold update_preferences.
  destruct (existsb is_allocated df) eqn:Hex; simpl.
  - split; apply Forall2_fmap_self.
    + apply update_round2_prepared.
    + apply update_round3_prepared.
  - pose proof (no_allocations_no_group df) as Hno.
    split; apply Forall2_self; intros r; specialize (Hno (grupa r) Hex).
    + unfold round2_prepared. intuition.
    + unfold round3_prepared. intuition.
Qed.

(** ** Rounds on rows *)

Lemma is_candidate_true c r :
  is_candidate c r = true ↔ alocare r = "" ∧ get_col c r ≠ "".
Proof.
  unfold is_candidate. by rewrite andb_true_iff, !bool_decide_eq_true.
Qed.

(** A round leaves a row as it is or allocates it the domain it asks
    for. *)
Lemma round_spec_row c round_num df df' n picked i r :
  round_spec c round_num df df' n picked → df !! i = Some r →
  ((i ∉ picked) ∧ df' !! i = Some r) ∨
  (i ∈ picked ∧ df' !! i = Some (allocate_row c round_num r) ∧
   alocare r = "" ∧ get_col c r ≠ "" ∧
   ∃ g, grupa r = Some g ∧ ¬ held df g (get_col c r)).
Proof.
  intros Hspec Hi. rewrite (rs_rows _ _ _ _ _ _ Hspec), Hi. simpl.
  case_decide as Hp; [right | by left].
  destruct (rs_picked _ _ _ _ _ _ Hspec i Hp) as (r' & g & Hr' & Hc & Hg & Hh).
  simplify_eq. apply is_candidate_true in Hc as [? ?]. eauto 10.
Qed.

Lemma round_spec_row_inv c round_num df df' n picked i r' :
  round_spec c round_num df df' n picked → df' !! i = Some r' →
  ∃ r, df !! i = Some r.
Proof.
  intros Hspec Hi. rewrite (rs_rows _ _ _ _ _ _ Hspec) in Hi.
  destruct (df !! i) as [r|]; [by exists r | done].
Qed.

(** ** No domain twice in a group *)

(** No two teams of a group hold the same domain. *)
Definition group_domains_unique (df : DataFrame) : Prop :=
  ∀ i j ri rj, df !! i = Some ri → df !! j = Some rj → i ≠ j →
    grupa ri = grupa rj → alocare ri ≠ "" → alocare ri ≠ alocare rj.

Lemma round_spec_unique c round_num df df' n picked :
  round_spec c round_num df df' n picked →
  group_domains_unique df → group_domains_unique df'.
Proof.
  intros Hspec Huniq i j ri' rj' Hi' Hj' Hij Hg Hal Heq.
  destruct (round_spec_row_inv _ _ _ _ _ _ _ _ Hspec Hi') as [ri Hi].
  destruct (round_spec_row_inv _ _ _ _ _ _ _ _ Hspec Hj') as [rj Hj].
  destruct (round_spec_row _ _ _ _ _ _ _ _ Hspec Hi)
    as [[Hpi Hri]|(Hpi & Hri & Hai & Hci & gi & Hgi & Hhi)];
  destruct (round_spec_row _ _ _ _ _ _ _ _ Hspec Hj)
    as [[Hpj Hrj]|(Hpj & Hrj & Haj & Hcj & gj & Hgj & Hhj)];
  rewrite Hri in Hi'; rewrite Hrj in Hj';
  injection Hi' as <-; injection Hj' as <-; simpl in *.
  - by apply (Huniq i j ri rj).
  - (* [j] is allocated what [i] already holds *)
    apply Hhj. exists ri. split; [by eapply list_elem_of_lookup_2|].
    split; [congruence|]. split; [done|]. by rewrite <- Heq.
  - (* [i] is allocated what [j] already holds *)
    apply Hhi. exists rj. split; [by eapply list_elem_of_lookup_2|].
    split; [congruence|]. split; [done | done].
  - (* both are allocated in this round *)
    apply Hij. apply (rs_unique _ _ _ _ _ _ Hspec i j (gi, get_col c ri)); [done..| |].
    + apply rowkey_Some. exists ri. by rewrite is_candidate_true.
    + apply rowkey_Some. exists rj. rewrite is_candidate_true.
      split; [done|]. split; [done|]. split; [congruence | done].
Qed.

Lemma same_except_prefs_unique df df' round_num :
  Forall2 (same_except_prefs round_num) df df' →
  group_domains_unique df → group_domains_unique df'.
Proof.
  intros Hframe Huniq i j ri' rj' Hi' Hj' Hij Hg Hal.
  destruct (Forall2_lookup_r _ _ _ i ri' Hframe Hi') as (ri & Hi & Hsi).
  destruct (Forall2_lookup_r _ _ _ j rj' Hframe Hj') as (rj & Hj & Hsj).
  destruct Hsi as (_ & _ & Hgi & _ & _ & Hai & _).
  destruct Hsj as (_ & _ & Hgj & _ & _ & Haj & _).
  rewrite Hai, Haj. apply (Huniq i j ri rj); congruence.
Qed.

Lemma preprocess_unallocated raw df i r :
  preprocess_dataframe raw = Ok df → df !! i = Some r →
  alocare r = "" ∧ runda r = "" ∧ tema_proiect r = "".
Proof.
  destruct raw as [rows|col]; simpl; [|done].
  case_decide; [done|]. intros [= <-] Hi.
  apply list_lookup_fmap_Some in Hi as (x & -> & _).
  unfold preprocess_row. by destruct (dedup_domains _ _ _) as [[? ?] ?].
Qed.

Lemma preprocess_unique raw df :
  preprocess_dataframe raw = Ok df → group_domains_unique df.
Proof.
  intros Hpre i j ri rj Hi Hj _ _ Hal.
  by destruct (preprocess_unallocated raw df i ri Hpre Hi) as [? _].
Qed.

Lemma assign_themes_lookup df i :
  assign_themes df !! i = (λ r, set_tema_proiect (theme_of r) r) <$> df !! i.
Proof. unfold assign_themes. apply list_lookup_fmap. Qed.

Lemma assign_themes_unique df :
  group_domains_unique df → group_domains_unique (assign_themes df).
Proof.
  intros Huniq i j ri' rj'. rewrite !assign_themes_lookup.
  intros (ri & Hi & ->)%fmap_Some (rj & Hj & ->)%fmap_Some. simpl.
  by apply Huniq.
Qed.

Section invariant.
Context `{RandomGen}.

Lemma allocate_round_unique df c round_num df' n :
  allocate_round df c round_num = Ok (df', n) →
  group_domains_unique df → group_domains_unique df'.
Proof.
  intros Halloc. destruct (allocate_round_spec _ _ _ _ _ Halloc) as [picked Hspec].
  by eapply round_spec_unique.
Qed.

(** The steps of [run_rounds], one by one. *)
Lemma run_rounds_Ok raw run :
  run_rounds raw = Ok run →
  ∃ df0 s1 s2 s3,
    preprocess_dataframe raw = Ok df0 ∧
    allocate_round df0 col_d1 1 = Ok (after_round1 run, s1) ∧
    allocate_round (update_preferences (after_round1 run) 2) col_d2 2
      = Ok (after_round2 run, s2) ∧
    allocate_round (update_preferences (after_round2 run) 3) col_d3 3
      = Ok (after_round3 run, s3) ∧
    final run = assign_themes (after_round3 run) ∧
    allocation_stats run = {| round1 := s1; round2 := s2; round3 := s3 |}.
Proof.
  unfold run_rounds.
  destruct (preprocess_dataframe raw) as [df0|e] eqn:H0; simpl; [|done].
  destruct (allocate_round df0 col_d1 1) as [[df1 s1]|e] eqn:H1; simpl; [|done].
  destruct (allocate_round (update_preferences df1 2) col_d2 2)
    as [[df2 s2]|e] eqn:H2; simpl; [|done].
  destruct (allocate_round (update_preferences df2 3) col_d3 3)
    as [[df3 s3]|e] eqn:H3; simpl; [|done].
  intros [= <-]. simpl. by exists df0, s1, s2, s3.
Qed.


(** C1: after each of the three rounds (and in the final table) no two
    teams of one group hold the same domain, whether the domain was
    taken in an earlier round or is asked for by several teams of the
    group in the same round. *)
Theorem group_domains_unique_after_every_round (raw : RawFrame) (run : Run) :
  run_rounds raw = Ok run →
  group_domains_unique (after_round1 run) ∧
  group_domains_unique (after_round2 run) ∧
  group_domains_unique (after_round3 run) ∧
  group_domains_unique (final run).
Proof.
  intros Hrun.
  destruct (run_rounds_Ok raw run Hrun)
    as (df0 & s1 & s2 & s3 & Hpre & Hr1 & Hr2 & Hr3 & Hfin & _).
  assert (group_domains_unique (after_round1 run)) as H1.
  { eapply allocate_round_unique; [exact Hr1|]. by eapply preprocess_unique. }
  assert (group_domains_unique (after_round2 run)) as H2.
  { eapply allocate_round_unique; [exact Hr2|].
    eapply same_except_prefs_unique; [apply update_preferences_same_except | done]. }
  assert (group_domains_unique (after_round3 run)) as H3.
  { eapply allocate_round_unique; [exact Hr3|].
    eapply same_except_prefs_unique; [apply update_preferences_same_except | done]. }
  repeat split; try done. rewrite Hfin. by apply assign_themes_unique.
Qed.
End invariant.

(** ** Partitions of one team *)

Lemma NoDup_partition_members c df k members :
  (k, members) ∈ partitions c df → NoDup members.
Proof.
  unfold partitions. intros [_ ->]%elem_of_groupby.
  apply (sublist_NoDup _ ((imap pair df).*1)).
  - rewrite fmap_imap.
    rewrite (imap_ext _ (λ j _, j)) by done.
    rewrite (imap_seq_0 df (λ j, j)), list_fmap_id. apply NoDup_seq.
  - apply fmap_sublist. etrans; apply sublist_filter.
Qed.

Lemma singleton_members (members : list nat) i :
  NoDup members → members ≠ [] → (∀ j, j ∈ members → j = i) → members = [i].
Proof.
  intros Hnd Hne Hall. destruct members as [|a [|b l]]; [done| |].
  - f_equal. apply Hall. left.
  - apply NoDup_cons in Hnd as [Hab _]. destruct Hab.
    rewrite (Hall a), (Hall b); [left | right; left | left].
Qed.

Section singleton.
Context `{RandomGen}.

(** C7: a candidate that is alone in its (group, domain) partition, in a
    group that does not hold the domain yet, is allocated in that round,
    whatever the generator and its state: its partition is the one-team
    partition of the round; the iteration of the loop on that partition
    leaves the generator as it found it (no draw), skip or pick, from
    every loop state and so where the partition comes in the loop of the
    round; after the round, run from any generator state or by
    [allocate_round], the team's [alocare] is the domain it asked for,
    which is not empty, and its [runda] is the round number; and
    [allocate_round] does return for the rounds 1 to 3. *)
Theorem singleton_partition_allocated (df : DataFrame) (c : DomainCol)
    (round_num : Z) (i : nat) (r : Row) (g : string) :
  df !! i = Some r → is_candidate c r = true → grupa r = Some g →
  (∀ j rj, df !! j = Some rj → is_candidate c rj = true →
           grupa rj = Some g → get_col c rj = get_col c r → j = i) →
  ¬ held df g (get_col c r) →
  ((g, get_col c r), [i]) ∈ partitions c df ∧
  (∀ st, rng (allocate_step st ((g, get_col c r), [i])) = rng st) ∧
  (∃ before after,
     partitions c df = (before ++ ((g, get_col c r), [i]) :: after)%list ∧
     ∀ st0, rng (foldl allocate_step st0
                   (before ++ [((g, get_col c r), [i])])%list)
            = rng (foldl allocate_step st0 before)) ∧
  (∀ g0, ∃ r', (allocate_from g0 df c round_num).1 !! i = Some r' ∧
               alocare r' = get_col c r ∧ alocare r' ≠ "" ∧
               runda r' = pretty round_num) ∧
  (∀ df' n, allocate_round df c round_num = Ok (df', n) →
            ∃ r', df' !! i = Some r' ∧
                  alocare r' = get_col c r ∧ alocare r' ≠ "" ∧
                  runda r' = pretty round_num) ∧
  (1 ≤ round_num ≤ 3 → ∃ df' n, allocate_round df c round_num = Ok (df', n)).
Proof.
  intros Hi Hc Hg Halone Hfree.
  assert (rowkey c df i = Some (g, get_col c r)) as Hkey.
  { apply rowkey_Some. by exists r. }
  assert (∀ j, rowkey c df j = Some (g, get_col c r) → j = i) as Honly.
  { intros j (rj & Hj & Hcj & Hgj & Hdj)%rowkey_Some. by apply (Halone j rj). }
  assert (get_col c r ≠ "") as Hdom.
  { apply is_candidate_true in Hc. tauto. }
  assert (∀ df' n picked, round_spec c round_num df df' n picked →
            ∃ r', df' !! i = Some r' ∧ alocare r' = get_col c r ∧
                  alocare r' ≠ "" ∧ runda r' = pretty round_num) as Hround.
  { intros df' n picked Hspec.
    destruct (rs_complete _ _ _ _ _ _ Hspec i g (get_col c r) Hkey Hfree)
      as (j & Hj & Hkj).
    apply Honly in Hkj as ->.
    exists (allocate_row c round_num r). split; [|by repeat split].
    rewrite (rs_rows _ _ _ _ _ _ Hspec), Hi. simpl. by rewrite decide_True. }
  assert (((g, get_col c r), [i]) ∈ partitions c df) as Hpart.
  { assert ((g, get_col c r) ∈ (partitions c df).*1) as Hin.
    { apply elem_of_partitions_keys. by exists i. }
    apply list_elem_of_fmap in Hin as ([k members] & Hk & Hin). simpl in Hk. subst k.
    destruct (elem_of_partitions _ _ _ _ Hin) as [Hne Hmem].
    rewrite <- (singleton_members members i); [done | | done |].
    - by eapply NoDup_partition_members.
    - intros j Hj. apply Honly. by apply Hmem. }
  assert (∀ st, rng (allocate_step st ((g, get_col c r), [i])) = rng st) as Hstep.
  { intros st. unfold allocate_step.
    destruct (claims (allocated_dict st) g (get_col c r)); [done|].
    by rewrite select_team_singleton. }
  split; [done|]. split; [done|]. split; [|split; [|split]].
  - apply list_elem_of_split in Hpart as (before & after & Hsplit).
    exists before, after. split; [done|].
    intros st0. by rewrite foldl_snoc.
  - intros g0. destruct (allocate_from_spec g0 df c round_num) as [picked Hspec]. eauto.
  - intros df' n Halloc.
    destruct (allocate_round_spec _ _ _ _ _ Halloc) as [picked Hspec]. eauto.
  - apply allocate_round_total.
Qed.
End singleton.

(** ** Allocations are kept *)

Section monotone.
Context `{RandomGen}.

(** A later call on the table: a round (that returns or raises), a
    preference update, or the theme assignment. *)
Inductive later_call : DataFrame → DataFrame → Prop :=
| call_allocate_round df c round_num df' n :
    allocate_round df c round_num = Ok (df', n) → later_call df df'
| call_allocate_round_raises df c round_num e :
    allocate_round df c round_num = Raise e → later_call df df
| call_update_preferences df round_num :
    later_call df (update_preferences df round_num)
| call_assign_themes df :
    later_call df (assign_themes df).

Lemma later_call_keeps df df' i r :
  later_call df df' → df !! i = Some r → alocare r ≠ "" →
  ∃ r', df' !! i = Some r' ∧ alocare r' = alocare r ∧ runda r' = runda r.
Proof.
  intros Hcall Hi Hal. destruct Hcall as [df c rn df' n Halloc|df c rn e _|df rn|df].
  - destruct (allocate_round_spec _ _ _ _ _ Halloc) as [picked Hspec].
    destruct (round_spec_row _ _ _ _ _ _ _ _ Hspec Hi)
      as [[_ Hr]|(_ & _ & Hno & _)]; [by exists r | done].
  - by exists r.
  - destruct (update_preferences_lookup df rn i r Hi) as (r' & Hr' & Hsame).
    exists r'. destruct Hsame as (_ & _ & _ & _ & _ & ? & ? & _). done.
  - exists (set_tema_proiect (theme_of r) r).
    rewrite assign_themes_lookup, Hi. done.
Qed.

(** C2: once a team has an allocated domain, any sequence of later calls
    to [allocate_round], [update_preferences] and [assign_themes] leaves
    its allocated domain and its round as they are. *)
Theorem allocation_never_changes (df df' : DataFrame) (i : nat) (r : Row) :
  rtc later_call df df' →
  df !! i = Some r → alocare r ≠ "" →
  ∃ r', df' !! i = Some r' ∧ alocare r' = alocare r ∧ runda r' = runda r.
Proof.
  intros Hcalls. revert r.
  induction Hcalls as [df|df df1 df' Hcall Hcalls IH]; intros r Hi Hal.
  - by exists r.
  - destruct (later_call_keeps df df1 i r Hcall Hi Hal) as (r1 & Hr1 & Ha1 & Hn1).
    destruct (IH r1 Hr1) as (r' & Hr' & Ha' & Hn'); [congruence|].
    exists r'. split; [done|]. split; congruence.
Qed.
End monotone.

(** ** Where allocated domains come from *)

(** [d] is empty or the domain prefix of an original preference entry of
    the row. *)
Definition from_original (r : Row) (d : string) : Prop :=
  d = "" ∨ ∃ tema, tema ∈ domenii r ∧ before_hyphen tema = d.

(** The preferences and the allocated domain of a row are domain prefixes
    of its original entries, and no original entry has a space. *)
Record row_wf (r : Row) : Prop := {
  wf_d1 : from_original r (d1 r);
  wf_d2 : from_original r (d2 r);
  wf_d3 : from_original r (d3 r);
  wf_alocare : from_original r (alocare r);
  wf_no_space : ∀ tema, tema ∈ domenii r → Py.contains " "%char tema = false
}.

Lemma token_from_split clean k :
  before_hyphen (domains_split k clean) = "" ∨
  ∃ tema, tema ∈ Py.split ","%char clean ∧
          before_hyphen tema = before_hyphen (domains_split k clean).
Proof.
  unfold domains_split.
  destruct (Py.split ","%char clean !! k) as [tema|] eqn:Hk; simpl.
  - right. exists tema. split; [by eapply list_elem_of_lookup_2 | done].
  - by left.
Qed.

Lemma dedup_domains_values t1 t2 t3 :
  let '(x1, x2, x3) := dedup_domains t1 t2 t3 in
  x1 = t1 ∧ (x2 = t2 ∨ x2 = t3 ∨ x2 = "") ∧ (x3 = t3 ∨ x3 = "").
Proof.
  unfold dedup_domains.
  destruct (_ || _ || _), (_ || _); simpl; auto.
Qed.

Lemma preprocess_row_wf raw : row_wf (preprocess_row raw).
Proof.
  unfold preprocess_row.
  set (clean := options_clean (raw_Optiuni raw)).
  pose proof (token_from_split clean 0) as H1.
  pose proof (token_from_split clean 1) as H2.
  pose proof (token_from_split clean 2) as H3.
  pose proof (dedup_domains_values
                (before_hyphen (domains_split 0 clean))
                (before_hyphen (domains_split 1 clean))
                (before_hyphen (domains_split 2 clean))) as Hv.
  destruct (dedup_domains _ _ _) as [[x1 x2] x3].
  destruct Hv as (-> & Hx2 & Hx3).
  assert (∀ d, d = "" ∨ (∃ tema, tema ∈ Py.split ","%char clean ∧
                                 before_hyphen tema = d) →
               d = "" ∨ ∃ tema, tema ∈ Py.split ","%char clean ∧
                                before_hyphen tema = d) as Hid by auto.
  split; unfold from_original; simpl.
  - done.
  - destruct Hx2 as [-> | [-> | ->]]; auto.
  - destruct Hx3 as [-> | ->]; auto.
  - by left.
  - intros tema Hin. eapply contains_split; [|exact Hin].
    apply contains_remove_char.
Qed.

(** A preference update only moves the third preference into the second
    or clears preferences. *)
Definition prefs_shrink (r r' : Row) : Prop :=
  domenii r' = domenii r ∧ alocare r' = alocare r ∧ d1 r' = d1 r ∧
  (d2 r' = d2 r ∨ d2 r' = d3 r ∨ d2 r' = "") ∧
  (d3 r' = d3 r ∨ d3 r' = "").

Lemma update_preferences_shrink df round_num :
  Forall2 prefs_shrink df (update_preferences df round_num).
Proof.
  unfold update_preferences.
  assert (∀ r, prefs_shrink r r) as Hrefl by (by repeat split; auto).
  destruct (negb (existsb is_allocated df)); [by apply Forall2_self|].
  destruct (decide (round_num = 2)).
  { apply Forall2_fmap_self. intros r. unfold update_round2.
    destruct (grupa r ≫= _); [|by repeat split; auto].
    destruct (bool_decide _); [|by repeat split; auto].
    destruct (_ && _); by repeat split; auto. }
  destruct (decide (round_num = 3)); [|by apply Forall2_self].
  apply Forall2_fmap_self. intros r. unfold update_round3.
  destruct (grupa r ≫= _); [|by repeat split; auto].
  destruct (bool_decide _); by repeat split; auto.
Qed.

Lemma prefs_shrink_wf r r' : prefs_shrink r r' → row_wf r → row_wf r'.
Proof.
  intros (Hdom & Hal & Hd1 & Hd2 & Hd3) [W1 W2 W3 Wa Wn].
  split; unfold from_original in *; rewrite ?Hdom, ?Hal, ?Hd1; try done.
  - destruct Hd2 as [-> | [-> | ->]]; auto.
  - destruct Hd3 as [-> | ->]; auto.
Qed.

Lemma allocate_row_wf c round_num r : row_wf r → row_wf (allocate_row c round_num r).
Proof.
  intros [W1 W2 W3 Wa Wn]. split; simpl; try done. by destruct c.
Qed.

Definition table_wf (df : DataFrame) : Prop := ∀ i r, df !! i = Some r → row_wf r.

Lemma round_spec_wf c round_num df df' n picked :
  round_spec c round_num df df' n picked → table_wf df → table_wf df'.
Proof.
  intros Hspec Hwf i r' Hi'.
  destruct (round_spec_row_inv _ _ _ _ _ _ _ _ Hspec Hi') as [r Hi].
  destruct (round_spec_row _ _ _ _ _ _ _ _ Hspec Hi) as [[_ Hr]|(_ & Hr & _)];
    rewrite Hr in Hi'; injection Hi' as <-.
  - by eapply Hwf.
  - apply allocate_row_wf. by eapply Hwf.
Qed.

Lemma update_preferences_wf df round_num :
  table_wf df → table_wf (update_preferences df round_num).
Proof.
  intros Hwf i r' Hi'.
  destruct (Forall2_lookup_r _ _ _ i r' (update_preferences_shrink df round_num) Hi')
    as (r & Hi & Hshrink).
  eapply prefs_shrink_wf; [done|]. by eapply Hwf.
Qed.

Lemma preprocess_wf raw df : preprocess_dataframe raw = Ok df → table_wf df.
Proof.
  destruct raw as [rows|col]; simpl; [|done].
  case_decide; [done|]. intros [= <-] i r Hi.
  apply list_lookup_fmap_Some in Hi as (x & -> & _). apply preprocess_row_wf.
Qed.

(** ** The theme of a row *)

Lemma theme_of_unallocated r : alocare r = "" → theme_of r = MANUAL.
Proof. intros Hal. unfold theme_of. by rewrite Hal. Qed.

Lemma theme_of_allocated r :
  row_wf r → alocare r ≠ "" →
  ∃ tema, List.find (λ tema, Py.truthy tema && Py.startswith tema (alocare r))
                    (domenii r) = Some tema ∧
          theme_of r = tema ∧ tema ∈ domenii r ∧ tema ≠ MANUAL.
Proof.
  intros [_ _ _ Wa Wn] Hal. unfold theme_of.
  rewrite (proj2 (truthy_true (alocare r)) Hal). simpl.
  destruct Wa as [?|(tema0 & Hin0 & Hpre)]; [done|].
  destruct (List.find _ (domenii r)) as [tema|] eqn:Hfind.
  - exists tema. apply find_some in Hfind as [Hin _].
    apply list_elem_of_In in Hin. repeat split; try done.
    intros ->. by specialize (Wn _ Hin).
  - apply find_none with (x := tema0) in Hfind; [|by apply list_elem_of_In].
    rewrite <- Hpre in Hfind, Hal.
    rewrite before_hyphen_startswith, before_hyphen_truthy in Hfind; done.
Qed.

Section themes.
Context `{RandomGen}.

Lemma run_rounds_wf raw run : run_rounds raw = Ok run → table_wf (after_round3 run).
Proof.
  intros Hrun.
  destruct (run_rounds_Ok raw run Hrun)
    as (df0 & s1 & s2 & s3 & Hpre & Hr1 & Hr2 & Hr3 & _).
  destruct (allocate_round_spec _ _ _ _ _ Hr1) as [p1 Hs1].
  destruct (allocate_round_spec _ _ _ _ _ Hr2) as [p2 Hs2].
  destruct (allocate_round_spec _ _ _ _ _ Hr3) as [p3 Hs3].
  eapply round_spec_wf; [exact Hs3|]. apply update_preferences_wf.
  eapply round_spec_wf; [exact Hs2|]. apply update_preferences_wf.
  eapply round_spec_wf; [exact Hs1|]. by eapply preprocess_wf.
Qed.

(** C10: in the final table of a run, the allocated domain of a team is
    the domain prefix of one of its original preference entries, so the
    search of [assign_themes] finds an entry for every allocated team, and
    the theme is the manual-assignment default exactly for the teams that
    have no allocated domain. *)
Theorem allocated_theme_is_found (raw : RawFrame) (run : Run) (i : nat) (r : Row) :
  run_rounds raw = Ok run → final run !! i = Some r →
  (alocare r ≠ "" →
   (∃ tema, tema ∈ domenii r ∧ before_hyphen tema = alocare r) ∧
   (∃ tema, List.find (λ tema, Py.truthy tema && Py.startswith tema (alocare r))
                      (domenii r) = Some tema ∧ tema_proiect r = tema)) ∧
  (tema_proiect r = MANUAL ↔ alocare r = "").
Proof.
  intros Hrun Hi.
  pose proof (run_rounds_wf raw run Hrun) as Hwf.
  destruct (run_rounds_Ok raw run Hrun) as (_ & _ & _ & _ & _ & _ & _ & _ & Hfin & _).
  rewrite Hfin, assign_themes_lookup in Hi.
  apply fmap_Some in Hi as (r3 & Hi & ->). simpl.
  specialize (Hwf i r3 Hi). split.
  - intros Hal. split.
    + destruct (wf_alocare _ Hwf) as [?|?]; done.
    + destruct (theme_of_allocated r3 Hwf Hal) as (tema & Hfind & Hth & _).
      by exists tema.
  - split.
    + intros Hth. destruct (decide (alocare r3 = "")) as [|Hal]; [done|].
      destruct (theme_of_allocated r3 Hwf Hal) as (tema & _ & Heq & _ & Hne).
      congruence.
    + apply theme_of_unallocated.
Qed.
End themes.

(** ** The theme resolver against §4.4 *)

(** §4.4 as written: the first original entry whose domain prefix equals
    the allocated domain, the default when the team has no domain or no
    entry matches. *)
Definition theme_by_domain (r : Row) : string :=
  if bool_decide (alocare r = "") then MANUAL
  else
    match List.find (λ tema, bool_decide (before_hyphen tema = alocare r))
                    (domenii r) with
    | Some tema => tema
    | None => MANUAL
    end.

Lemma find_ext_in {A} (f g : A → bool) (l : list A) :
  (∀ x, x ∈ l → f x = g x) → List.find f l = List.find g l.
Proof.
  induction l as [|a l IH]; intros Hfg; simpl; [done|].
  rewrite (Hfg a) by left. destruct (g a); [done|].
  apply IH. intros x Hx. apply Hfg. by right.
Qed.

(** [assign_themes] agrees with §4.4 on a row none of whose entries
    merely starts with the allocated domain. *)
Lemma theme_of_by_domain r :
  (∀ tema, tema ∈ domenii r → tema ≠ "" →
           Py.startswith tema (alocare r) = true →
           before_hyphen tema = alocare r) →
  theme_of r = theme_by_domain r.
Proof.
  intros Hexact. unfold theme_of, theme_by_domain.
  destruct (decide (alocare r = "")) as [Hal|Hal].
  - rewrite Hal. done.
  - rewrite (proj2 (truthy_true _) Hal), bool_decide_eq_false_2 by done. simpl.
    rewrite (find_ext_in _ (λ tema, bool_decide (before_hyphen tema = alocare r)));
      [done|].
    intros tema Hin. destruct (bool_decide _) eqn:Hb.
    + apply bool_decide_eq_true in Hb. rewrite <- Hb in Hal |- *.
      by rewrite before_hyphen_startswith, before_hyphen_truthy.
    + apply bool_decide_eq_false in Hb.
      destruct (Py.truthy tema) eqn:Ht; [|done]. simpl.
      destruct (Py.startswith tema (alocare r)) eqn:Hs; [|done].
      destruct Hb. apply Hexact; [done | by apply truthy_true | done].
Qed.

(** ** The orchestrator *)

Section runs.
Context `{RandomGen} `{CsvIO}.

Lemma load_and_run_input (w w' : World) :
  files w !! INPUT_PATH = files w' !! INPUT_PATH →
  load_and_run w = load_and_run w'.
Proof. unfold load_and_run. by intros ->. Qed.


Lemma allocate_projects_output (w : World) (df : DataFrame) :
  (allocate_projects w).1 = Some df →
  (∃ run, load_and_run w = Ok run ∧ final run = df) ∧
  files (allocate_projects w).2 !! OUTPUT_PATH = Some (csv_text df).
Proof.
  unfold allocate_projects. destruct (load_and_run w) as [run|e]; [|done].
  destruct (to_csv _ _ _); [|done]. simpl. intros [= <-].
  split; [by exists run|]. by rewrite lookup_insert_eq.
Qed.

(** The input cannot be read: [read_csv] raises, or the table it returns
    lacks a column the preprocessor reads. *)
Definition input_read_fails (w : World) (e : Exception) : Prop :=
  read_csv (files w !! INPUT_PATH) = Raise e ∨
  ∃ col, read_csv (files w !! INPUT_PATH) = Ok (FrameWithout col) ∧ e = KeyError col.

Lemma missing_file_fails (w : World) :
  files w !! INPUT_PATH = None → ∃ e, input_read_fails w e.
Proof.
  intros Hnone. destruct read_csv_missing as [e He].
  exists e. left. by rewrite Hnone.
Qed.

(** C8: when the input cannot be read, the run returns the error value,
    one line naming the error goes to the error stream, and no file is
    written or changed. *)
Theorem input_failure_aborts (w : World) (e : Exception) :
  input_read_fails w e →
  allocate_projects w =
  (None, {| files := files w;
            stderr := stderr w ++ ["Error: " +:+ str_exc e];
            np_random := np_random w |}).
Proof.
  unfold allocate_projects, load_and_run.
  intros [Hread|(col & Hread & ->)]; rewrite Hread; done.
Qed.
End runs.

(** ** Reproducible runs *)

(** The numbers a generator gives when it is asked, one call after the
    other, for a number below each of [sizes]. *)
Fixpoint draws `{RandomGen} (g : rng_state) (sizes : list nat) : list nat :=
  match sizes with
  | [] => []
  | n :: sizes' => (randint g n).1 :: draws (randint g n).2 sizes'
  end.

Section reproducible.
Context (G1 G2 : RandomGen).

(** Two generator states, of two runs or of two implementations, that
    give the same numbers. *)
Definition same_draws (g1 : @rng_state G1) (g2 : @rng_state G2) : Prop :=
  ∀ sizes, @draws G1 g1 sizes = @draws G2 g2 sizes.

(** [RandomState(seed)] is the same stream in both: the seed is refused
    with the same error, or accepted with the same numbers to come. *)
Definition same_stream (seed : Z) : Prop :=
  match @RandomState G1 seed, @RandomState G2 seed with
  | Ok g1, Ok g2 => same_draws g1 g2
  | Raise e1, Raise e2 => e1 = e2
  | _, _ => False
  end.

(** The loop variables of two runs agree, up to the generators' own
    states. *)
Definition same_loop (st1 : @LoopState G1) (st2 : @LoopState G2) : Prop :=
  allocated_dict st1 = allocated_dict st2 ∧
  team_indices st1 = team_indices st2 ∧
  allocated_domains st1 = allocated_domains st2 ∧
  same_draws (rng st1) (rng st2).

Lemma same_draws_randint g1 g2 n :
  same_draws g1 g2 →
  (@randint G1 g1 n).1 = (@randint G2 g2 n).1 ∧
  same_draws (@randint G1 g1 n).2 (@randint G2 g2 n).2.
Proof.
  intros Hs. split.
  - specialize (Hs [n]). simpl in Hs. by injection Hs.
  - intros sizes. specialize (Hs (n :: sizes)). simpl in Hs. by injection Hs.
Qed.

Lemma same_draws_select_team g1 g2 group_df :
  same_draws g1 g2 →
  (@select_team G1 g1 group_df).1 = (@select_team G2 g2 group_df).1 ∧
  same_draws (@select_team G1 g1 group_df).2 (@select_team G2 g2 group_df).2.
Proof.
  intros Hs. unfold select_team. destruct (decide _); [done|].
  destruct (same_draws_randint g1 g2 (length group_df) Hs) as [Hk Hs'].
  destruct (@randint G1 g1 _) as [k1 g1'], (@randint G2 g2 _) as [k2 g2'].
  simpl in *. by subst.
Qed.

Lemma same_loop_step st1 st2 part :
  same_loop st1 st2 →
  same_loop (@allocate_step G1 st1 part) (@allocate_step G2 st2 part).
Proof.
  intros (Hd & Hi & Ha & Hs). destruct part as [[group domain] group_df].
  unfold allocate_step. rewrite Hd.
  destruct (claims _ _ _); [done|].
  destruct (same_draws_select_team _ _ group_df Hs) as [Hk Hs'].
  destruct (@select_team G1 _ _) as [i1 g1'], (@select_team G2 _ _) as [i2 g2'].
  simpl in *. subst. repeat split; simpl; [by rewrite Hi | by rewrite Ha | done].
Qed.

Lemma same_loop_foldl parts st1 st2 :
  same_loop st1 st2 →
  same_loop (foldl (@allocate_step G1) st1 parts) (foldl (@allocate_step G2) st2 parts).
Proof.
  revert st1 st2. induction parts as [|part parts IH]; intros st1 st2 Hst; [done|].
  simpl. by apply IH, same_loop_step.
Qed.

(** The loop draws from the generator and from nothing else: two
    generator states with the same numbers give the same round. *)
Lemma allocate_from_same_draws g1 g2 df c round_num :
  same_draws g1 g2 →
  @allocate_from G1 g1 df c round_num = @allocate_from G2 g2 df c round_num.
Proof.
  intros Hs. unfold allocate_from.
  set (dict0 := if existsb is_allocated df then build_allocated_dict df else ∅).
  destruct (same_loop_foldl (partitions c df)
              {| allocated_dict := dict0; rng := g1;
                 team_indices := []; allocated_domains := [] |}
              {| allocated_dict := dict0; rng := g2;
                 team_indices := []; allocated_domains := [] |})
    as (_ & Hi & Ha & _); [done|].
  by rewrite Hi, Ha.
Qed.

(** A round is reproducible from its own seed, [SEED + round_num], and
    its arguments. *)
Lemma allocate_round_same_stream df c round_num :
  same_stream (SEED + round_num) →
  @allocate_round G1 df c round_num = @allocate_round G2 df c round_num.
Proof.
  unfold same_stream, allocate_round. intros Hs.
  destruct (negb (existsb (is_candidate c) df)); [done|].
  destruct (@RandomState G1 (SEED + round_num)) as [g1|e1],
           (@RandomState G2 (SEED + round_num)) as [g2|e2]; simpl; try done.
  - f_equal. by apply allocate_from_same_draws.
  - by subst.
Qed.

Lemma run_rounds_same_stream raw :
  (∀ round_num, round_num ∈ [1; 2; 3] → same_stream (SEED + round_num)) →
  @run_rounds G1 raw = @run_rounds G2 raw.
Proof.
  intros Hs. unfold run_rounds.
  destruct (preprocess_dataframe raw) as [df0|e]; simpl; [|done].
  rewrite (allocate_round_same_stream df0 col_d1 1) by (apply Hs; set_solver).
  destruct (@allocate_round G2 df0 col_d1 1) as [[df1 s1]|e]; simpl; [|done].
  rewrite (allocate_round_same_stream _ col_d2 2) by (apply Hs; set_solver).
  destruct (@allocate_round G2 _ col_d2 2) as [[df2 s2]|e]; simpl; [|done].
  rewrite (allocate_round_same_stream _ col_d3 3) by (apply Hs; set_solver).
  done.
Qed.

Context `{CsvIO}.

(** C3: two runs of the pipeline on the same input file, in two processes
    or on two implementations whose generators give the same numbers from
    the seeds [SEED + 1], [SEED + 2] and [SEED + 3], are identical,
    whatever else differs (other files, the error stream, the process-wide
    generator, the generators' own states): every round gives the same
    table and count on every table, since it draws only from its own
    generator seeded with [SEED + round_num]; the tables after every
    round, the final table and the counts of [allocation_stats] agree;
    and when both runs return a table it is the same table, written as
    the same text to the output file. *)
Theorem pipeline_deterministic (w : @World G1 _) (w' : @World G2 _) :
  (∀ round_num, round_num ∈ [1; 2; 3] → same_stream (SEED + round_num)) →
  files w !! INPUT_PATH = files w' !! INPUT_PATH →
  (∀ df c round_num, round_num ∈ [1; 2; 3] →
     @allocate_round G1 df c round_num = @allocate_round G2 df c round_num) ∧
  load_and_run w = load_and_run w' ∧
  (∀ df df', (allocate_projects w).1 = Some df →
             (allocate_projects w').1 = Some df' →
             df = df' ∧
             files (allocate_projects w).2 !! OUTPUT_PATH = Some (csv_text df) ∧
             files (allocate_projects w').2 !! OUTPUT_PATH = Some (csv_text df)).
Proof.
  intros Hs Hin.
  assert (load_and_run w = load_and_run w') as Hrun.
  { unfold load_and_run. rewrite Hin.
    destruct (read_csv (files w' !! INPUT_PATH)) as [raw|e]; simpl; [|done].
    by apply run_rounds_same_stream. }
  split; [|split; [done|]].
  - intros df c round_num Hk. by apply allocate_round_same_stream, Hs.
  - intros df df' Hdf Hdf'.
    destruct (allocate_projects_output w df Hdf) as [(run & Hr & <-) Hout].
    destruct (allocate_projects_output w' df' Hdf') as [(run' & Hr' & <-) Hout'].
    rewrite Hrun, Hr' in Hr. injection Hr as <-. done.
Qed.
End reproducible.

(** Two runs on one implementation: a generator gives the same numbers
    as itself. *)
Lemma same_stream_refl (G : RandomGen) (seed : Z) : same_stream G G seed.
Proof. unfold same_stream. by destruct (@RandomState G seed). Qed.

(** * Examples *)

(** Three teams of group X with the same three preferences and one team of
    group Y: every round allocates in group X. *)
Definition three_rounds : RawFrame :=
  Frame [team "X-1" "A-a,B-b,C-c"; team "X-2" "A-d, B-e, C-f";
         team "X-3" "A-g,B-h,C-i"; team "Y-1" "A-j"].

(** Two teams of one group whose first domain, AB, starts with their second
    domain, A. *)
Definition prefix_frame : RawFrame :=
  Frame [team "X-1" "AB-x,A-y,C-z"; team "X-2" "AB-x,A-y,C-z"].

Definition three_rounds_df0 : DataFrame :=
  preprocess_row <$> [team "X-1" "A-a,B-b,C-c"; team "X-2" "A-d, B-e, C-f";
                      team "X-3" "A-g,B-h,C-i"; team "Y-1" "A-j"].

Definition summary (df : DataFrame) : list (string * string * string) :=
  (λ r, (alocare r, runda r, tema_proiect r)) <$> df.

Example three_rounds_run :
  ∃ run, @run_rounds counter_gen three_rounds = Ok run ∧
         summary (final run) =
           [("C", "3", "C-c"); ("B", "2", "B-e"); ("A", "1", "A-g"); ("A", "1", "A-j")] ∧
         allocation_stats run = {| round1 := 2; round2 := 1; round3 := 1 |}.
Proof. eexists. split; [vm_compute; reflexivity|]. split; reflexivity. Qed.

Example too_few_columns :
  @run_rounds counter_gen (Frame [team "X-1" "A-a,B-b"; team "X-2" "A-c"])
  = Raise (KeyError "2").
Proof. reflexivity. Qed.

Example no_group : grupa (preprocess_row (team "-1" "A-a,B-b,C-c")) = None.
Proof. reflexivity. Qed.

(** Partitions come by group, then by domain, each with its row labels in
    row order. *)
Example partitions_in_key_order :
  partitions col_d1
    (preprocess_row <$> [team "X-1" "B-a"; team "W-1" "B-b"; team "X-2" "A-c";
                         team "X-3" "B-d"; team "-4" "A-e"])
  = [(("W", "B"), [1%nat]); (("X", "A"), [2%nat]); (("X", "B"), [0%nat; 3%nat])].
Proof. vm_compute. reflexivity. Qed.

(** The cascade before round 2: G-1 holds B and G-2 holds A after round 1;
    G-3, which asked for A, has its second preference B replaced by its
    third, C. *)
Example cascade_before_round2 :
  ∃ run, @run_rounds counter_gen
           (Frame [team "G-1" "B-a"; team "G-2" "A-e"; team "G-3" "A-b,B-c,C-d"])
         = Ok run ∧
         prefs <$> update_preferences (after_round1 run) 2
         = [["B"; ""; ""]; ["A"; ""; ""]; ["A"; "C"; ""]] ∧
         summary (final run)
         = [("B", "1", "B-a"); ("A", "1", "A-e"); ("C", "2", "C-d")].
Proof.
  eexists. split; [vm_compute; reflexivity|]. split; vm_compute; reflexivity.
Qed.

(** C1 on the three-round example. *)
Lemma group_domains_unique_after_every_round_witness :
  ∃ run, @run_rounds counter_gen three_rounds = Ok run ∧
         group_domains_unique (after_round1 run) ∧
         group_domains_unique (after_round2 run) ∧
         group_domains_unique (after_round3 run) ∧
         group_domains_unique (final run).
Proof.
  eexists. split; [vm_compute; reflexivity|].
  apply (@group_domains_unique_after_every_round counter_gen three_rounds).
  vm_compute. reflexivity.
Defined.

(** The table of the three-round example after round 1. *)
Definition three_rounds_df1 : DataFrame :=
  Eval vm_compute in
    match @allocate_round counter_gen three_rounds_df0 col_d1 1 with
    | Ok (df, _) => df
    | Raise _ => []
    end.

(** The table of the three-round example after round 2. *)
Definition three_rounds_df2 : DataFrame :=
  Eval vm_compute in
    match @allocate_round counter_gen (update_preferences three_rounds_df1 2) col_d2 2 with
    | Ok (df, _) => df
    | Raise _ => []
    end.

(** Team X-3 after round 1. *)
Definition three_rounds_X3 : Row :=
  {| Echipa := Some "X-3"; Optiuni := Some "A-g,B-h,C-i"; grupa := Some "X";
     d1 := "A"; d2 := "B"; d3 := "C"; domenii := ["A-g"; "B-h"; "C-i"];
     alocare := "A"; runda := "1"; tema_proiect := "" |}.

(** C2 on the three-round example: team X-3, allocated in round 1, keeps
    its domain and round through the update, round 2 and the themes. *)
Lemma allocation_never_changes_witness :
  three_rounds_df1 !! 2%nat = Some three_rounds_X3 ∧
  ∃ r', assign_themes three_rounds_df2 !! 2%nat = Some r' ∧
        alocare r' = alocare three_rounds_X3 ∧ runda r' = runda three_rounds_X3.
Proof.
  split; [vm_compute; reflexivity|].
  apply (@allocation_never_changes counter_gen three_rounds_df1).
  - eapply rtc_l; [apply (@call_update_preferences counter_gen _ 2)|].
    eapply rtc_l;
      [apply (@call_allocate_round counter_gen _ col_d2 2 three_rounds_df2 1);
       vm_compute; reflexivity|].
    eapply rtc_l; [apply (@call_assign_themes counter_gen)|]. apply rtc_refl.
  - vm_compute. reflexivity.
  - discriminate.
Defined.

(** C7 on the three-round example: Y-1 is alone in its partition and
    holds A, with round 1, after round 1. *)
Lemma singleton_partition_allocated_witness :
  (("Y", "A"), [3%nat]) ∈ partitions col_d1 three_rounds_df0 ∧
  ∃ r', three_rounds_df1 !! 3%nat = Some r' ∧ alocare r' = "A" ∧ runda r' = "1".
Proof.
  destruct (@singleton_partition_allocated counter_gen three_rounds_df0
              col_d1 1 3%nat (preprocess_row (team "Y-1" "A-j")) "Y")
    as (Hpart & _ & _ & _ & Hround & _).
  - reflexivity.
  - reflexivity.
  - reflexivity.
  - intros j rj Hj Hc Hg _.
    destruct j as [|[|[|[|j]]]]; [| | |done|done];
      vm_compute in Hj; injection Hj as <-; vm_compute in Hg; discriminate Hg.
  - intros (r & Hr & _ & Hal & Hne). apply Hne. rewrite <- Hal.
    unfold three_rounds_df0 in Hr.
    repeat (apply elem_of_cons in Hr as [-> | Hr]; [reflexivity|]).
    by apply elem_of_nil in Hr.
  - split; [exact Hpart|].
    destruct (Hround three_rounds_df1 2%nat) as (r' & Hr' & Hal & _ & Hru);
      [vm_compute; reflexivity|].
    exists r'. split; [exact Hr'|]. split; [exact Hal | exact Hru].
Defined.

(** C10 on the three-round example: the theme of X-2, allocated B. *)
Lemma allocated_theme_is_found_witness :
  ∃ run r, @run_rounds counter_gen three_rounds = Ok run ∧
           final run !! 1%nat = Some r ∧ alocare r = "B" ∧
           tema_proiect r = "B-e" ∧
           (tema_proiect r = MANUAL ↔ alocare r = "").
Proof.
  eexists. eexists. split; [vm_compute; reflexivity|].
  split; [vm_compute; reflexivity|]. split; [reflexivity|]. split; [reflexivity|].
  refine (proj2 (@allocated_theme_is_found counter_gen three_rounds _ 1%nat _ _ _)).
  - vm_compute. reflexivity.
  - vm_compute. reflexivity.
Defined.

(** C5, on the code: the two teams of [prefix_frame] end with the domains
    AB and A; the theme given to the team that holds A is the entry of
    domain AB, which only starts with A, while the first entry whose
    domain prefix is A is "A-y". *)
Theorem theme_of_longer_domain :
  ∃ run r, @run_rounds counter_gen prefix_frame = Ok run ∧
           final run !! 1%nat = Some r ∧
           alocare r = "A" ∧ domenii r = ["AB-x"; "A-y"; "C-z"] ∧
           tema_proiect r = "AB-x" ∧ theme_of r = "AB-x" ∧
           theme_by_domain r = "A-y".
Proof.
  eexists. eexists. split; [vm_compute; reflexivity|].
  split; [vm_compute; reflexivity|]. repeat split; reflexivity.
Qed.

(** Worlds over the concrete file format. *)
Definition world_a : @World counter_gen mem_csv :=
  {| files := {[ INPUT_PATH := CsvIn three_rounds ]};
     stderr := []; np_random := None |}.

(** A second generator with the numbers of [counter_gen]; its state also
    counts the draws made. *)
Definition counting_randint (st : Z * nat) (n : nat) : nat * (Z * nat) :=
  (Z.to_nat (st.1 `mod` Z.of_nat n), (st.1 + 1, S st.2)).

Definition counting_RandomState (seed : Z) : result (Z * nat) :=
  match counter_RandomState seed with
  | Ok st => Ok (st, 0%nat)
  | Raise e => Raise e
  end.

Lemma counting_RandomState_valid seed :
  0 ≤ seed < 2 ^ 32 → ∃ st, counting_RandomState seed = Ok st.
Proof.
  intros Hseed. unfold counting_RandomState.
  destruct (counter_RandomState_valid seed Hseed) as [st ->]. by eexists.
Qed.

Lemma counting_randint_range (st : Z * nat) (n : nat) :
  (0 < n)%nat → ((counting_randint st n).1 < n)%nat.
Proof. apply counter_randint_range. Qed.

Definition counting_gen : RandomGen :=
  {| rng_state := Z * nat;
     RandomState := counting_RandomState;
     randint := counting_randint;
     RandomState_valid := counting_RandomState_valid;
     randint_range := counting_randint_range |}.

Lemma counting_same_draws (st : Z) (k : nat) :
  same_draws counter_gen counting_gen st (st, k).
Proof.
  intros sizes. revert st k.
  induction sizes as [|n sizes IH]; intros st k; [done|].
  cbn [draws]. f_equal. apply (IH (st + 1) (S k)).
Qed.

Lemma counting_same_stream (seed : Z) : same_stream counter_gen counting_gen seed.
Proof.
  unfold same_stream. cbn [RandomState counter_gen counting_gen].
  unfold counting_RandomState.
  destruct (counter_RandomState seed) as [st|e]; [|done].
  apply counting_same_draws.
Qed.

(** The input of [world_a] in another process: the other generator, in
    some state, another file beside the input, and an error stream that is
    not empty. *)
Definition world_b : @World counting_gen mem_csv :=
  {| files := {[ INPUT_PATH := CsvIn three_rounds; "notes.txt" := Garbled ]};
     stderr := ["earlier"];
     np_random := Some ((42, 5%nat) : @rng_state counting_gen) |}.

Definition world_no_input : @World counter_gen mem_csv :=
  {| files := {[ OUTPUT_PATH := Garbled ]}; stderr := []; np_random := None |}.

(** The input of [world_a] with an output file that cannot be written. *)
Definition world_read_only : @World counter_gen mem_csv :=
  {| files := {[ INPUT_PATH := CsvIn three_rounds; OUTPUT_PATH := ReadOnly ]};
     stderr := []; np_random := None |}.

(** C3 on two worlds that share only the input file, with two generators
    that give the same numbers. *)
Lemma pipeline_deterministic_witness :
  load_and_run world_a = load_and_run world_b ∧
  ∃ df, (allocate_projects world_a).1 = Some df ∧
        (allocate_projects world_b).1 = Some df ∧
        summary df =
          [("C", "3", "C-c"); ("B", "2", "B-e"); ("A", "1", "A-g"); ("A", "1", "A-j")] ∧
        files (allocate_projects world_a).2 !! OUTPUT_PATH = Some (CsvOut df) ∧
        files (allocate_projects world_b).2 !! OUTPUT_PATH = Some (CsvOut df).
Proof.
  destruct (pipeline_deterministic counter_gen counting_gen world_a world_b)
    as (_ & Hrun & Hout).
  { intros round_num _. apply counting_same_stream. }
  { vm_compute. reflexivity. }
  split; [exact Hrun|].
  assert (∃ df, (allocate_projects world_a).1 = Some df ∧
                summary df =
                  [("C", "3", "C-c"); ("B", "2", "B-e"); ("A", "1", "A-g");
                   ("A", "1", "A-j")]) as (df & Hdf & Hsum).
  { eexists. split; vm_compute; reflexivity. }
  assert (∃ df', (allocate_projects world_b).1 = Some df') as (df' & Hdf').
  { eexists. vm_compute. reflexivity. }
  destruct (Hout df df' Hdf Hdf') as (Heq & Hf & Hf').
  exists df. split; [exact Hdf|]. split; [by rewrite Heq|].
  split; [exact Hsum|]. split; [exact Hf | exact Hf'].
Defined.

(** A write that fails ends the run like any other error. *)
Example write_failure :
  (allocate_projects world_read_only).1 = None ∧
  stderr (allocate_projects world_read_only).2 = ["Error: Permission denied"] ∧
  files (allocate_projects world_read_only).2 = files world_read_only.
Proof. vm_compute. by repeat split. Qed.

(** The group is a character, not a byte. *)
Example group_of_utf8 :
  group_of (Some "Ș-1") = Some "Ș" ∧ group_of (Some "Émile-2") = Some "É" ∧
  group_of (Some "A-1") = Some "A" ∧ group_of (Some "-1") = None.
Proof. by vm_compute. Qed.

(** C8 on a world without the input file: the file already at the output
    path stays as it is. *)
Lemma input_failure_aborts_witness :
  (allocate_projects world_no_input).1 = None ∧
  files (allocate_projects world_no_input).2 = files world_no_input ∧
  stderr (allocate_projects world_no_input).2 = ["Error: No such file or directory"].
Proof.
  pose proof (input_failure_aborts world_no_input
                (OSError "No such file or directory")) as Habort.
  rewrite Habort; [by repeat split|].
  left. vm_compute. reflexivity.
Defined.

(** * Further properties *)

(** ** The preprocessor *)

(** The number of comma-separated options of a row, spaces removed. *)
Definition option_count (raw : RawRow) : nat :=
  length (Py.split ","%char (options_clean (raw_Optiuni raw))).

Lemma split_width_lt rows k :
  (0 < k)%nat →
  (split_width rows < k)%nat ↔ Forall (λ raw, (option_count raw < k)%nat) rows.
Proof.
  intros Hk. unfold split_width. induction rows as [|raw rows IH]; simpl.
  - split; [constructor | lia].
  - rewrite Forall_cons, <- IH. unfold option_count.
    apply Nat.max_lub_lt_iff.
Qed.

(** X1: [preprocess_dataframe] needs a row with three options: when some row
    has at least three comma-separated options the table is preprocessed
    row by row; when every row has fewer (an empty table too), the lookup
    of the missing column raises [KeyError]. *)
Theorem preprocess_needs_three_options (rows : list RawRow) :
  (Exists (λ raw, (3 ≤ option_count raw)%nat) rows →
   preprocess_dataframe (Frame rows) = Ok (preprocess_row <$> rows)) ∧
  (Forall (λ raw, (option_count raw < 3)%nat) rows →
   ∃ k, (k < 3)%nat ∧
        preprocess_dataframe (Frame rows) = Raise (KeyError (pretty k))).
Proof.
  unfold preprocess_dataframe. split.
  - intros Hex. rewrite decide_False; [done|].
    rewrite split_width_lt by lia. intros Hall.
    apply Exists_exists in Hex as (raw & Hin & Hraw).
    rewrite Forall_forall in Hall. specialize (Hall raw Hin). lia.
  - intros Hall. exists (split_width rows).
    assert (split_width rows < 3)%nat as Hlt
      by (by apply (proj2 (split_width_lt rows 3 ltac:(lia)))).
    split; [done|]. by rewrite decide_True.
Qed.




Lemma contains_partition c sep s :
  Py.contains c s = false → Py.contains c (Py.partition sep s).1 = false.
Proof.
  induction s as [|a s IH]; simpl; [done|].
  intros [Ha Hs]%orb_false_iff.
  destruct (Ascii.eqb a sep); [done|].
  specialize (IH Hs). destruct (Py.partition sep s) as [h t]. simpl in *.
  by rewrite Ha.
Qed.

Lemma token_no_space optiuni k :
  Py.contains " "%char (before_hyphen (domains_split k (options_clean optiuni))) = false.
Proof.
  rewrite before_hyphen_fst. apply contains_partition. unfold domains_split.
  destruct (Py.split ","%char (options_clean optiuni) !! k) as [tema|] eqn:Hk;
    simpl; [|done].
  eapply contains_split; [apply contains_remove_char|].
  by eapply list_elem_of_lookup_2.
Qed.

(** X3: For every raw preference string the filled preferences of the
    preprocessed row are distinct, are the distinct non-empty domain tokens
    in the order of their first occurrence, have no space, keep the first
    token as first preference, and the third preference is filled only when
    the second is. *)
Theorem preprocess_prefs_distinct (raw : RawRow) :
  NoDup (nonempty (prefs (preprocess_row raw))) ∧
  nonempty (prefs (preprocess_row raw))
    = first_occurrences [] (nonempty (tokens (raw_Optiuni raw))) ∧
  Some (d1 (preprocess_row raw)) = tokens (raw_Optiuni raw) !! 0%nat ∧
  (d3 (preprocess_row raw) ≠ "" → d2 (preprocess_row raw) ≠ "") ∧
  Forall (λ d, Py.contains " "%char d = false) (prefs (preprocess_row raw)).
Proof.
  pose proof (prefs_preprocess_row raw) as Hp.
  pose proof (token_no_space (raw_Optiuni raw) 0) as Hs1.
  pose proof (token_no_space (raw_Optiuni raw) 1) as Hs2.
  pose proof (token_no_space (raw_Optiuni raw) 2) as Hs3.
  unfold tokens.
  set (t1 := before_hyphen (domains_split 0 (options_clean (raw_Optiuni raw)))) in *.
  set (t2 := before_hyphen (domains_split 1 (options_clean (raw_Optiuni raw)))) in *.
  set (t3 := before_hyphen (domains_split 2 (options_clean (raw_Optiuni raw)))) in *.
  pose proof (dedup_domains_first_occurrences t1 t2 t3) as Hocc.
  pose proof (dedup_domains_values t1 t2 t3) as Hval.
  destruct (dedup_domains t1 t2 t3) as [[x1 x2] x3].
  destruct Hocc as (-> & H32 & Hocc). destruct Hval as (_ & Hx2 & Hx3).
  rewrite Hp. unfold prefs in Hp. injection Hp as Hd1 Hd2 Hd3.
  rewrite Hd1, Hd2, Hd3.
  split; [rewrite Hocc; apply first_occurrences_spec|].
  split; [done|]. split; [done|]. split; [done|].
  repeat constructor; [done | |].
  - destruct Hx2 as [-> | [-> | ->]]; done.
  - destruct Hx3 as [-> | ->]; done.
Qed.

(** ** One round *)

Lemma lookup_fmap_length {A} (f : nat → A → A) (l l' : list A) :
  (∀ i, l' !! i = f i <$> l !! i) → length l' = length l.
Proof.
  intros Hl.
  destruct (Nat.lt_trichotomy (length l') (length l)) as [Hlt|[?|Hlt]]; [|done|].
  - apply lookup_lt_is_Some in Hlt as [x Hx].
    specialize (Hl (length l')). rewrite Hx in Hl. simpl in Hl.
    by rewrite lookup_ge_None_2 in Hl.
  - apply lookup_lt_is_Some in Hlt as [x Hx].
    specialize (Hl (length l)). rewrite Hx in Hl.
    by rewrite lookup_ge_None_2 in Hl.
Qed.

Lemma round_spec_length c round_num df df' n picked :
  round_spec c round_num df df' n picked → length df' = length df.
Proof.
  intros Hspec.
  apply (lookup_fmap_length
           (λ i r, if decide (i ∈ picked) then allocate_row c round_num r else r)).
  apply (rs_rows _ _ _ _ _ _ Hspec).
Qed.

(** What a round may do to a row: nothing, or give a candidate that has a
    group the domain of the round's column and the round number. *)
Definition round_step (c : DomainCol) (round_num : Z) (r r' : Row) : Prop :=
  r' = r ∨
  (alocare r = "" ∧ get_col c r ≠ "" ∧ grupa r ≠ None ∧
   r' = allocate_row c round_num r).

Section round_extras.
Context `{RandomGen}.

Lemma allocate_round_step df df' c round_num n :
  allocate_round df c round_num = Ok (df', n) →
  Forall2 (round_step c round_num) df df'.
Proof.
  intros Halloc. destruct (allocate_round_spec _ _ _ _ _ Halloc) as [picked Hspec].
  apply Forall2_same_length_lookup_2.
  - symmetry. by eapply round_spec_length.
  - intros i r r' Hi Hi'.
    destruct (round_spec_row _ _ _ _ _ _ _ _ Hspec Hi)
      as [[_ Hr]|(_ & Hr & Hal & Hcol & g & Hg & _)];
      rewrite Hr in Hi'; injection Hi' as <-; [by left | right].
    repeat split; try done. by rewrite Hg.
Qed.

(** X4: A round keeps the number and order of the rows, leaves every row that
    is not a candidate with a group as it is, and changes of a candidate
    only [alocare], to the domain it asks for in the round's column, and
    [runda], to the round number as text. *)
Theorem allocate_round_changes_only_candidates (df df' : DataFrame)
    (c : DomainCol) (round_num : Z) (n : nat) :
  allocate_round df c round_num = Ok (df', n) →
  length df' = length df ∧ Forall2 (round_step c round_num) df df'.
Proof.
  intros Halloc. pose proof (allocate_round_step _ _ _ _ _ Halloc) as Hstep.
  split; [|done]. symmetry. by eapply Forall2_length.
Qed.

(** X5: After a round every domain a candidate with a group asked for in the
    round's column is held by a team of that group: by the team or a
    competitor allocated in the round, or from an earlier round. *)
Theorem requested_domain_is_held_after_round (df df' : DataFrame)
    (c : DomainCol) (round_num : Z) (n i : nat) (r : Row) (g : string) :
  allocate_round df c round_num = Ok (df', n) →
  df !! i = Some r → is_candidate c r = true → grupa r = Some g →
  held df' g (get_col c r).
Proof.
  intros Halloc Hi Hc Hg.
  destruct (allocate_round_spec _ _ _ _ _ Halloc) as [picked Hspec].
  assert (get_col c r ≠ "") as Hne by (by apply is_candidate_true in Hc as [_ ?]).
  destruct (decide (claims (if existsb is_allocated df
                            then build_allocated_dict df else ∅) g (get_col c r) = true))
    as [Hheld|Hfree]; rewrite claims_initial_dict in *.
  - destruct Hheld as (r0 & Hin & Hg0 & Hal0 & _).
    apply list_elem_of_lookup_1 in Hin as [j Hj].
    destruct (round_spec_row _ _ _ _ _ _ _ _ Hspec Hj)
      as [[_ Hr]|(_ & _ & Hal & _)]; [|congruence].
    exists r0. split; [by eapply list_elem_of_lookup_2 | done].
  - destruct (rs_complete _ _ _ _ _ _ Hspec i g (get_col c r)) as (j & Hj & Hkj);
      [apply rowkey_Some; by exists r | done |].
    apply rowkey_Some in Hkj as (rj & Hrj & Hcj & Hgj & Hdj).
    destruct (round_spec_row _ _ _ _ _ _ _ _ Hspec Hrj)
      as [[Hno _]|(_ & Hr' & _)]; [done|].
    exists (allocate_row c round_num rj).
    split; [by eapply list_elem_of_lookup_2|]. simpl. done.
Qed.

(** X6: The count a round returns is zero exactly when the table comes back
    unchanged, and exactly when every candidate with a group asks for a
    domain its group already holds. *)
Theorem allocate_round_zero_iff (df df' : DataFrame) (c : DomainCol)
    (round_num : Z) (n : nat) :
  allocate_round df c round_num = Ok (df', n) →
  (n = 0%nat ↔ df' = df) ∧
  (n = 0%nat ↔
   ∀ i r g, df !! i = Some r → is_candidate c r = true → grupa r = Some g →
            held df g (get_col c r)).
Proof.
  intros Halloc. destruct (allocate_round_spec _ _ _ _ _ Halloc) as [picked Hspec].
  assert (n = 0%nat ↔ picked = []) as Hn.
  { rewrite (rs_count _ _ _ _ _ _ Hspec). by destruct picked. }
  rewrite !Hn. split; split.
  - intros ->. apply list_eq. intros i.
    rewrite (rs_rows _ _ _ _ _ _ Hspec). destruct (df !! i) as [r|]; [|done].
    cbn [fmap option_fmap option_map].
    rewrite decide_False; [done | apply not_elem_of_nil].
  - intros ->. destruct picked as [|i picked]; [done|].
    destruct (rs_picked _ _ _ _ _ _ Hspec i) as (r & g & Hi & Hc & _); [left|].
    destruct (round_spec_row _ _ _ _ _ _ _ _ Hspec Hi)
      as [[Hno _]|(_ & Hr' & Hal & Hcol & _)]; [by destruct Hno; left|].
    rewrite Hi in Hr'. injection Hr' as Hr'. rewrite Hr' in Hal. simpl in Hal. done.
  - intros -> i r g Hi Hc Hg.
    destruct (decide (claims (if existsb is_allocated df
                              then build_allocated_dict df else ∅) g (get_col c r) = true))
      as [Hheld|Hfree]; rewrite claims_initial_dict in *; [done|].
    destruct (rs_complete _ _ _ _ _ _ Hspec i g (get_col c r)) as (j & Hj & _);
      [apply rowkey_Some; by exists r | done |].
    by apply elem_of_nil in Hj.
  - intros Hall. destruct picked as [|i picked]; [done|].
    destruct (rs_picked _ _ _ _ _ _ Hspec i) as (r & g & Hi & Hc & Hg & Hfree); [left|].
    destruct Hfree. by eapply Hall.
Qed.
End round_extras.

(** ** Counting allocations *)

Global Instance held_dec df g d : Decision (held df g d).
Proof.
  refine (cast_if (decide (Exists (λ r, grupa r = Some g ∧ alocare r = d ∧ d ≠ "") df)));
    unfold held; rewrite Exists_exists in *; naive_solver.
Defined.

(** The number of allocated teams of a table. *)
Definition allocated_count (df : DataFrame) : nat :=
  length (filter (λ r, is_allocated r) df).

(** The row labels of the allocated teams. *)
Definition allocated_rows (df : DataFrame) : list nat :=
  filter (λ i, from_option is_allocated false (df !! i)) (seq 0 (length df)).

Lemma filter_ext_in {A} (P1 P2 : A → Prop)
    `{!∀ x, Decision (P1 x), !∀ x, Decision (P2 x)} (l : list A) :
  (∀ x, x ∈ l → P1 x ↔ P2 x) → filter P1 l = filter P2 l.
Proof.
  induction l as [|a l IH]; intros Hiff; [done|].
  rewrite !filter_cons.
  rewrite IH by (intros x Hx; apply Hiff; by right).
  destruct (decide (P1 a)) as [Ha|Ha], (decide (P2 a)) as [Ha'|Ha']; try done;
    apply (Hiff a) in Ha || apply (Hiff a) in Ha'; try done; left.
Qed.

Lemma length_allocated_rows df : length (allocated_rows df) = allocated_count df.
Proof.
  unfold allocated_rows, allocated_count.
  induction df as [|r df IH] using rev_ind; [done|].
  rewrite length_app. simpl. rewrite Nat.add_1_r, seq_S, !filter_app, !length_app.
  simpl. f_equal.
  - rewrite <- IH. f_equal. apply filter_ext_in. intros i Hi.
    apply elem_of_seq in Hi. by rewrite lookup_app_l by lia.
  - rewrite !filter_cons, !filter_nil.
    rewrite lookup_app_r by lia. rewrite Nat.sub_diag. simpl.
    by destruct (decide (is_allocated r)).
Qed.

Lemma elem_of_allocated_rows df i :
  i ∈ allocated_rows df ↔ ∃ r, df !! i = Some r ∧ alocare r ≠ "".
Proof.
  unfold allocated_rows. rewrite list_elem_of_filter, elem_of_seq. split.
  - intros [Hal _]. destruct (df !! i) as [r|]; simpl in Hal; [|done].
    exists r. split; [done|]. by apply is_allocated_true, Is_true_true.
  - intros (r & Hr & Hal). rewrite Hr. simpl. split.
    + by apply Is_true_true, is_allocated_true.
    + apply lookup_lt_Some in Hr. lia.
Qed.

Lemma round_spec_allocated_rows c round_num df df' n picked :
  round_spec c round_num df df' n picked →
  allocated_rows df' ≡ₚ allocated_rows df ++ picked.
Proof.
  intros Hspec. apply NoDup_Permutation.
  - apply NoDup_filter, NoDup_seq.
  - apply NoDup_app. split; [apply NoDup_filter, NoDup_seq|].
    split; [|apply (rs_nodup _ _ _ _ _ _ Hspec)].
    intros i (r & Hr & Hal)%elem_of_allocated_rows Hp.
    destruct (rs_picked _ _ _ _ _ _ Hspec i Hp) as (r' & g & Hr' & Hc & _).
    apply is_candidate_true in Hc as [Hc _]. congruence.
  - intros i. rewrite elem_of_app, !elem_of_allocated_rows. split.
    + intros (r' & Hr' & Hal).
      destruct (round_spec_row_inv _ _ _ _ _ _ _ _ Hspec Hr') as [r Hr].
      destruct (round_spec_row _ _ _ _ _ _ _ _ Hspec Hr)
        as [[_ Hsame]|(Hp & _)]; [left | by right].
      exists r. split; [done|]. congruence.
    + intros [(r & Hr & Hal)|Hp].
      * destruct (round_spec_row _ _ _ _ _ _ _ _ Hspec Hr)
          as [[_ Hsame]|(_ & _ & Hno & _)]; [by exists r | done].
      * destruct (rs_picked _ _ _ _ _ _ Hspec i Hp) as (r & g & Hr & Hc & _).
        destruct (round_spec_row _ _ _ _ _ _ _ _ Hspec Hr)
          as [[Hno _]|(_ & Hr' & _ & Hcol & _)]; [done|].
        exists (allocate_row c round_num r). done.
Qed.

Lemma round_spec_allocated_count c round_num df df' n picked :
  round_spec c round_num df df' n picked →
  allocated_count df' = (allocated_count df + n)%nat.
Proof.
  intros Hspec. rewrite <- !length_allocated_rows.
  rewrite (round_spec_allocated_rows _ _ _ _ _ _ Hspec), length_app.
  by rewrite (rs_count _ _ _ _ _ _ Hspec).
Qed.

Section counting.
Context `{RandomGen}.

(** X7: The count a round returns is the number of teams it allocates: the
    table has that many more allocated teams after the round. *)
Theorem allocate_round_counts_new_allocations (df df' : DataFrame)
    (c : DomainCol) (round_num : Z) (n : nat) :
  allocate_round df c round_num = Ok (df', n) →
  allocated_count df' = (allocated_count df + n)%nat.
Proof.
  intros Halloc. destruct (allocate_round_spec _ _ _ _ _ Halloc) as [picked Hspec].
  by eapply round_spec_allocated_count.
Qed.

Lemma round_spec_count_partitions c round_num df df' n picked :
  round_spec c round_num df df' n picked →
  n = length (filter (λ p, ¬ held df p.1.1 p.1.2) (partitions c df)).
Proof.
  intros Hspec. rewrite (rs_count _ _ _ _ _ _ Hspec).
  set (free := filter (λ p, ¬ held df p.1.1 p.1.2) (partitions c df)).
  assert (∀ j, j ∈ picked → ∃ g d, rowkey c df j = Some (g, d) ∧ ¬ held df g d)
    as Hkey.
  { intros j Hj.
    destruct (rs_picked _ _ _ _ _ _ Hspec j Hj) as (r & g & Hr & Hc & Hg & Hfree).
    exists g, (get_col c r). split; [|done]. apply rowkey_Some. by exists r. }
  assert (rowkey c df <$> picked ≡ₚ Some <$> free.*1) as Hperm.
  { apply NoDup_Permutation.
    - apply NoDup_fmap_2_strong; [|apply (rs_nodup _ _ _ _ _ _ Hspec)].
      intros x y Hx Hy Hxy. destruct (Hkey x Hx) as (g & d & Hkx & _).
      apply (rs_unique _ _ _ _ _ _ Hspec x y (g, d)); [done..|congruence].
    - apply (NoDup_fmap_2 Some).
      apply (sublist_NoDup _ ((partitions c df).*1)); [apply NoDup_partitions_keys|].
      apply fmap_sublist, sublist_filter.
    - intros k. rewrite !list_elem_of_fmap. split.
      + intros (j & -> & Hj). destruct (Hkey j Hj) as (g & d & Hk & Hfree).
        exists (g, d). split; [done|].
        assert ((g, d) ∈ (partitions c df).*1) as Hin.
        { apply elem_of_partitions_keys. by exists j. }
        apply list_elem_of_fmap in Hin as ([k' members] & Hk' & Hin).
        simpl in Hk'. subst k'. apply list_elem_of_fmap.
        exists ((g, d), members). split; [done|].
        apply list_elem_of_filter. done.
      + intros ([g d] & -> & Hin).
        apply list_elem_of_fmap in Hin as ([k' members] & Hk' & Hin).
        simpl in Hk'. subst k'.
        apply list_elem_of_filter in Hin as [Hfree Hin]. simpl in Hfree.
        assert ((g, d) ∈ (partitions c df).*1) as Hk.
        { apply list_elem_of_fmap. by exists ((g, d), members). }
        apply elem_of_partitions_keys in Hk as [i Hi].
        destruct (rs_complete _ _ _ _ _ _ Hspec i g d Hi Hfree) as (j & Hj & Hkj).
        by exists j. }
  apply Permutation_length in Hperm. by rewrite !length_fmap in Hperm.
Qed.

(** X8: A round allocates one team for every (group, domain) partition of its
    candidates whose group does not hold the domain yet, and no other:
    the count is the number of those partitions. *)
Theorem allocate_round_counts_free_partitions (df df' : DataFrame)
    (c : DomainCol) (round_num : Z) (n : nat) :
  allocate_round df c round_num = Ok (df', n) →
  n = length (filter (λ p, ¬ held df p.1.1 p.1.2) (partitions c df)).
Proof.
  intros Halloc. destruct (allocate_round_spec _ _ _ _ _ Halloc) as [picked Hspec].
  by eapply round_spec_count_partitions.
Qed.
End counting.

(** ** What the preference update offers *)

Global Instance group_claims_dec df og d : Decision (group_claims df og d).
Proof.
  refine (match og with
          | Some g => cast_if (decide (held df g d))
          | None => right _
          end); unfold group_claims; naive_solver.
Defined.

Lemma group_has_allocations_Exists df g :
  group_has_allocations df (Some g) ↔
  Exists (λ r, grupa r = Some g ∧ alocare r ≠ "") df.
Proof.
  unfold group_has_allocations, held. rewrite Exists_exists. split.
  - intros (g' & d & [= <-] & r & Hr & Hg & Hal & Hne).
    exists r. split; [done|]. split; [done|]. by rewrite Hal.
  - intros (r & Hr & Hg & Hal). exists g, (alocare r). split; [done|]. by exists r.
Qed.

Global Instance group_has_allocations_dec df og :
  Decision (group_has_allocations df og).
Proof.
  destruct og as [g|].
  - refine (cast_if (decide (Exists (λ r, grupa r = Some g ∧ alocare r ≠ "") df)));
      by rewrite group_has_allocations_Exists.
  - right. by intros (g' & d & ? & _).
Defined.

Lemma group_claims_nonempty df og : ¬ group_claims df og "".
Proof. by intros (g & _ & r & _ & _ & _ & Hne). Qed.

Lemma update_round2_offers_free df r :
  ¬ group_claims df (grupa r) (d2 (update_round2 (build_allocated_dict df) r)).
Proof.
  destruct (update_round2_prepared df r) as (Hnone & Hheld & Hfree).
  destruct (decide (group_claims df (grupa r) (d2 r))) as [Hd2|Hd2].
  - pose proof (group_claims_has _ _ _ Hd2) as Hhas.
    destruct (Hheld Hhas Hd2) as [Hpromote Hclear].
    destruct (decide (d3 r ≠ "" ∧ ¬ group_claims df (grupa r) (d3 r))) as [Hd3|Hd3].
    + destruct (Hpromote Hd3) as [-> _]. by destruct Hd3.
    + destruct (Hclear Hd3) as [-> _]. apply group_claims_nonempty.
  - destruct (decide (group_has_allocations df (grupa r))) as [Hhas|Hhas].
    + by destruct (Hfree Hhas Hd2) as [-> _].
    + by destruct (Hnone Hhas) as [-> _].
Qed.

Lemma update_round3_offers_free df r :
  ¬ group_claims df (grupa r) (d3 (update_round3 (build_allocated_dict df) r)).
Proof.
  destruct (update_round3_prepared df r) as (Hclear & Hkeep).
  destruct (decide (group_claims df (grupa r) (d3 r))) as [Hd3|Hd3].
  - rewrite Hclear; [apply group_claims_nonempty|].
    split; [by eapply group_claims_has | done].
  - rewrite Hkeep; [done|]. by intros [_ ?].
Qed.

Lemma update_preferences_free (df : DataFrame) :
  Forall (λ r, ¬ group_claims df (grupa r) (d2 r)) (update_preferences df 2) ∧
  Forall (λ r, ¬ group_claims df (grupa r) (d3 r)) (update_preferences df 3).
Proof.
  unfold update_preferences.
  destruct (existsb is_allocated df) eqn:Hex; simpl.
  - split; apply Forall_fmap, Forall_forall; intros r _; simpl.
    + replace (grupa (update_round2 (build_allocated_dict df) r)) with (grupa r)
        by (by destruct (update_round2_frame (build_allocated_dict df) r)
                 as (_ & _ & -> & _)).
      apply update_round2_offers_free.
    + replace (grupa (update_round3 (build_allocated_dict df) r)) with (grupa r)
        by (by destruct (update_round3_frame (build_allocated_dict df) r)
                 as (_ & _ & -> & _)).
      apply update_round3_offers_free.
  - split; apply Forall_forall; intros r _ Hcl;
      apply group_claims_has in Hcl; by apply (no_allocations_no_group df) in Hcl.
Qed.

(** X10: After the update for round 2 no team is left with a second preference
    that a team of its group holds, and after the update for round 3 no
    team is left with such a third preference: the update offers a team
    only domains that are free in its group. *)
Theorem update_preferences_offers_free_domains (df : DataFrame) :
  Forall (λ r, ¬ group_claims df (grupa r) (d2 r)) (update_preferences df 2) ∧
  Forall (λ r, ¬ group_claims df (grupa r) (d3 r)) (update_preferences df 3).
Proof. apply update_preferences_free. Qed.

Lemma same_except_prefs_held round_num df df' g d :
  Forall2 (same_except_prefs round_num) df df' → held df' g d ↔ held df g d.
Proof.
  intros Hframe. split.
  - intros (r' & Hin & Hg & Hal & Hne).
    apply list_elem_of_lookup_1 in Hin as [i Hi].
    destruct (Forall2_lookup_r _ _ _ i r' Hframe Hi) as (r & Hr & Hsame).
    destruct Hsame as (_ & _ & Hg' & _ & _ & Hal' & _).
    exists r. split; [by eapply list_elem_of_lookup_2|].
    split; [congruence|]. split; [congruence | done].
  - intros (r & Hin & Hg & Hal & Hne).
    apply list_elem_of_lookup_1 in Hin as [i Hi].
    destruct (Forall2_lookup_l _ _ _ i r Hframe Hi) as (r' & Hr' & Hsame).
    destruct Hsame as (_ & _ & Hg' & _ & _ & Hal' & _).
    exists r'. split; [by eapply list_elem_of_lookup_2|].
    split; [congruence|]. split; [congruence | done].
Qed.

Lemma filter_all {A} (P : A → Prop) `{!∀ x, Decision (P x)} (l : list A) :
  (∀ x, x ∈ l → P x) → filter P l = l.
Proof.
  induction l as [|a l IH]; intros Hall; [done|].
  rewrite filter_cons, decide_True by (apply Hall; left).
  f_equal. apply IH. intros x Hx. apply Hall. by right.
Qed.

Lemma partitions_all_free c df :
  (∀ i r g, df !! i = Some r → grupa r = Some g → ¬ held df g (get_col c r)) →
  filter (λ p, ¬ held df p.1.1 p.1.2) (partitions c df) = partitions c df.
Proof.
  intros Hfree. apply filter_all. intros [[g d] members] Hin. simpl.
  assert ((g, d) ∈ (partitions c df).*1) as Hk.
  { apply list_elem_of_fmap. by exists ((g, d), members). }
  apply elem_of_partitions_keys in Hk as [i Hi].
  apply rowkey_Some in Hi as (r & Hr & _ & Hg & <-). by eapply Hfree.
Qed.

Section served.
Context `{RandomGen}.

(** X12: In a run no partition is ever skipped: each of the three rounds
    allocates one team for every (group, domain) partition of its
    candidates, so the counts of [allocation_stats] are the numbers of
    partitions of the three rounds. *)
Theorem every_partition_is_served (raw : RawFrame) (run : Run) :
  run_rounds raw = Ok run →
  ∃ df0, preprocess_dataframe raw = Ok df0 ∧
    round1 (allocation_stats run) = length (partitions col_d1 df0) ∧
    round2 (allocation_stats run)
      = length (partitions col_d2 (update_preferences (after_round1 run) 2)) ∧
    round3 (allocation_stats run)
      = length (partitions col_d3 (update_preferences (after_round2 run) 3)).
Proof.
  intros Hrun.
  destruct (run_rounds_Ok raw run Hrun)
    as (df0 & s1 & s2 & s3 & Hpre & Hr1 & Hr2 & Hr3 & _ & ->).
  exists df0. split; [done|]. simpl.
  destruct (allocate_round_spec _ _ _ _ _ Hr1) as [p1 Hs1].
  destruct (allocate_round_spec _ _ _ _ _ Hr2) as [p2 Hs2].
  destruct (allocate_round_spec _ _ _ _ _ Hr3) as [p3 Hs3].
  rewrite (round_spec_count_partitions _ _ _ _ _ _ Hs1).
  rewrite (round_spec_count_partitions _ _ _ _ _ _ Hs2).
  rewrite (round_spec_count_partitions _ _ _ _ _ _ Hs3).
  destruct (update_preferences_free (after_round1 run)) as [Hf2 _].
  destruct (update_preferences_free (after_round2 run)) as [_ Hf3].
  rewrite !partitions_all_free; [done | | |].
  - intros i r g Hi Hg Hheld.
    apply (proj1 (same_except_prefs_held 3 _ _ g _
                    (update_preferences_same_except _ 3))) in Hheld.
    rewrite Forall_forall in Hf3. apply (Hf3 r); [by eapply list_elem_of_lookup_2|].
    by exists g.
  - intros i r g Hi Hg Hheld.
    apply (proj1 (same_except_prefs_held 2 _ _ g _
                    (update_preferences_same_except _ 2))) in Hheld.
    rewrite Forall_forall in Hf2. apply (Hf2 r); [by eapply list_elem_of_lookup_2|].
    by exists g.
  - intros i r g Hi Hg (r0 & Hin & _ & Hal & Hne).
    apply list_elem_of_lookup_1 in Hin as [j Hj].
    destruct (preprocess_unallocated raw df0 j r0 Hpre Hj) as [Hno _]. congruence.
Qed.
End served.

(** ** The theme resolver *)

Lemma MANUAL_truthy : MANUAL ≠ "".
Proof. done. Qed.

Lemma theme_of_cases r :
  theme_of r ≠ "" ∧
  (theme_of r = MANUAL ∨
   (alocare r ≠ "" ∧ theme_of r ∈ domenii r ∧
    Py.startswith (theme_of r) (alocare r) = true)).
Proof.
  unfold theme_of. destruct (Py.truthy (alocare r)) eqn:Hal; simpl.
  - apply truthy_true in Hal.
    destruct (List.find _ (domenii r)) as [tema|] eqn:Hfind.
    + apply find_some in Hfind as [Hin [Ht Hs]%andb_true_iff].
      apply truthy_true in Ht. apply list_elem_of_In in Hin.
      split; [done | right; done].
    + split; [done | by left].
  - split; [done | by left].
Qed.

(** X13: [assign_themes] gives every row a theme that is not empty: the
    default, or an original entry of the row that starts with its
    allocated domain; it changes no other column, keeps the rows in order,
    and assigning themes again changes nothing. *)
Theorem assign_themes_sets_every_theme (df : DataFrame) :
  Forall2 (λ r r',
             r' = set_tema_proiect (tema_proiect r') r ∧
             tema_proiect r' ≠ "" ∧
             (tema_proiect r' = MANUAL ∨
              (alocare r ≠ "" ∧ tema_proiect r' ∈ domenii r ∧
               Py.startswith (tema_proiect r') (alocare r) = true)))
          df (assign_themes df) ∧
  assign_themes (assign_themes df) = assign_themes df.
Proof.
  unfold assign_themes. split.
  - apply Forall2_fmap_self. intros r. simpl. split; [done|].
    apply theme_of_cases.
  - rewrite <- list_fmap_compose. apply list_fmap_ext. intros i r _. done.
Qed.

(** ** The whole run *)

(** The columns of a team that no stage writes after preprocessing. *)
Definition same_team (r r' : Row) : Prop :=
  Echipa r' = Echipa r ∧ Optiuni r' = Optiuni r ∧ grupa r' = grupa r ∧
  d1 r' = d1 r ∧ domenii r' = domenii r.

Lemma round_step_same_team c round_num r r' :
  round_step c round_num r r' → same_team r r'.
Proof. intros [-> | (_ & _ & _ & ->)]; by repeat split. Qed.

Lemma same_except_prefs_same_team round_num r r' :
  same_except_prefs round_num r r' → same_team r r'.
Proof. intros (? & ? & ? & ? & ? & _). by repeat split. Qed.

Lemma same_team_trans r1 r2 r3 : same_team r1 r2 → same_team r2 r3 → same_team r1 r3.
Proof.
  intros (? & ? & ? & ? & ?) (? & ? & ? & ? & ?). repeat split; congruence.
Qed.

(** The slot a team was granted: a team without domain has no round, a
    team with round k holds its k-th preference. *)
Definition granted_slot (r : Row) : Prop :=
  (alocare r = "" ∧ runda r = "") ∨
  (alocare r ≠ "" ∧
   ((runda r = "1" ∧ alocare r = d1 r) ∨
    (runda r = "2" ∧ alocare r = d2 r) ∨
    (runda r = "3" ∧ alocare r = d3 r))).

Section whole_run.
Context `{RandomGen}.

(** The stages of a run as steps on rows. *)
Lemma run_rounds_stages raw run :
  run_rounds raw = Ok run →
  ∃ df0 df1' df2',
    preprocess_dataframe raw = Ok df0 ∧
    Forall2 (round_step col_d1 1) df0 (after_round1 run) ∧
    Forall2 (same_except_prefs 2) (after_round1 run) df1' ∧
    Forall2 (round_step col_d2 2) df1' (after_round2 run) ∧
    Forall2 (same_except_prefs 3) (after_round2 run) df2' ∧
    Forall2 (round_step col_d3 3) df2' (after_round3 run) ∧
    final run = assign_themes (after_round3 run).
Proof.
  intros Hrun.
  destruct (run_rounds_Ok _ run Hrun)
    as (df0 & s1 & s2 & s3 & Hpre & Hr1 & Hr2 & Hr3 & Hfin & _).
  exists df0, (update_preferences (after_round1 run) 2),
         (update_preferences (after_round2 run) 3).
  split; [done|].
  split; [by eapply allocate_round_step|].
  split; [apply update_preferences_same_except|].
  split; [by eapply allocate_round_step|].
  split; [apply update_preferences_same_except|].
  split; [by eapply allocate_round_step | done].
Qed.

(** X14: Every input team is in the output exactly once and in input order:
    the final table has one row per input row, with the team's name and
    options as read, the group, first preference and entry list the
    preprocessor gave it, and a theme that is not empty. *)
Theorem every_team_in_output (rows : list RawRow) (run : Run) :
  run_rounds (Frame rows) = Ok run →
  Forall2 (λ raw r,
             Echipa r = raw_Echipa raw ∧ Optiuni r = raw_Optiuni raw ∧
             same_team (preprocess_row raw) r ∧ tema_proiect r ≠ "")
          rows (final run).
Proof.
  intros Hrun.
  destruct (run_rounds_stages _ run Hrun)
    as (df0 & df1' & df2' & Hpre & S1 & U2 & S2 & U3 & S3 & ->).
  assert (df0 = preprocess_row <$> rows) as ->.
  { simpl in Hpre. case_decide; [done|]. by injection Hpre as <-. }
  assert (Forall2 same_team (preprocess_row <$> rows) (after_round3 run)) as Hsame.
  { eapply Forall2_trans; [apply same_team_trans | |
      eapply Forall2_impl; [exact S3 | apply round_step_same_team]].
    eapply Forall2_trans; [apply same_team_trans | |
      eapply Forall2_impl; [exact U3 | apply same_except_prefs_same_team]].
    eapply Forall2_trans; [apply same_team_trans | |
      eapply Forall2_impl; [exact S2 | apply round_step_same_team]].
    eapply Forall2_trans; [apply same_team_trans | |
      eapply Forall2_impl; [exact U2 | apply same_except_prefs_same_team]].
    eapply Forall2_impl; [exact S1 | apply round_step_same_team]. }
  rewrite Forall2_fmap_l in Hsame. unfold assign_themes. apply Forall2_fmap_r.
  eapply Forall2_impl; [exact Hsame|]. simpl.
  intros raw r Hteam.
  assert (Echipa (preprocess_row raw) = raw_Echipa raw ∧
          Optiuni (preprocess_row raw) = raw_Optiuni raw) as [He Ho].
  { unfold preprocess_row. by destruct (dedup_domains _ _ _) as [[? ?] ?]. }
  pose proof Hteam as (He' & Ho' & _).
  split; [congruence|]. split; [congruence|]. split.
  - destruct Hteam as (? & ? & ? & ? & ?). by repeat split.
  - apply theme_of_cases.
Qed.
End whole_run.

(** *** The slot a team is granted *)

Definition unallocated (r : Row) : Prop := alocare r = "" ∧ runda r = "".

Definition granted (k : string) (c : DomainCol) (r : Row) : Prop :=
  alocare r ≠ "" ∧ runda r = k ∧ alocare r = get_col c r.

Lemma str_round_number :
  pretty (1 : Z) = "1" ∧ pretty (2 : Z) = "2" ∧ pretty (3 : Z) = "3".
Proof. by vm_compute. Qed.

Lemma round_step_unallocated c round_num r r' :
  round_step c round_num r r' → unallocated r →
  unallocated r' ∨ granted (pretty round_num) c r'.
Proof.
  intros [-> | (_ & Hcol & _ & ->)] Hun; [by left | right].
  by repeat split.
Qed.

Lemma round_step_granted c round_num k c' r r' :
  round_step c round_num r r' → granted k c' r → granted k c' r'.
Proof.
  intros [-> | (Hal & _)] Hg; [done|]. by destruct Hg as [Hne _].
Qed.

Lemma same_except_prefs_unallocated round_num r r' :
  same_except_prefs round_num r r' → unallocated r → unallocated r'.
Proof.
  intros (_ & _ & _ & _ & _ & Hal & Hru & _) [? ?]. split; congruence.
Qed.

Lemma same_except_prefs_granted_d1 round_num k r r' :
  same_except_prefs round_num r r' → granted k col_d1 r → granted k col_d1 r'.
Proof.
  intros (_ & _ & _ & Hd1 & _ & Hal & Hru & _) (? & ? & ?).
  unfold granted. simpl in *. split; [congruence|]. split; congruence.
Qed.

Lemma same_except_prefs_granted_d2 k r r' :
  same_except_prefs 3 r r' → granted k col_d2 r → granted k col_d2 r'.
Proof.
  intros (_ & _ & _ & _ & _ & Hal & Hru & _ & Hd2 & _) (? & ? & ?).
  unfold granted. simpl in *. specialize (Hd2 ltac:(done)).
  split; [congruence|]. split; congruence.
Qed.

Lemma allocated_count_same_alocare (df df' : DataFrame) :
  Forall2 (λ r r', alocare r' = alocare r) df df' →
  allocated_count df' = allocated_count df.
Proof.
  unfold allocated_count. induction 1 as [|r r' df df' Hal _ IH]; [done|].
  rewrite !filter_cons.
  assert (is_allocated r' = is_allocated r) as Heq.
  { unfold is_allocated. by rewrite Hal. }
  rewrite Heq. destruct (decide (is_allocated r)); simpl; by rewrite IH.
Qed.

Lemma allocated_count_none (df : DataFrame) :
  (∀ r, r ∈ df → alocare r = "") → allocated_count df = 0%nat.
Proof.
  intros Hno. unfold allocated_count.
  induction df as [|r df IH]; [done|].
  rewrite filter_cons, decide_False.
  - apply IH. intros x Hx. apply Hno. by right.
  - unfold is_allocated. rewrite (Hno r) by left. by intros ?.
Qed.

Section run_facts.
Context `{RandomGen}.

(** X15: In the final table a team without domain has no round, and a team
    with round 1, 2 or 3 holds its first, second or third preference as
    the table shows it; there is no other case. *)
Theorem final_round_names_the_granted_preference (raw : RawFrame) (run : Run) :
  run_rounds raw = Ok run →
  Forall granted_slot (final run).
Proof.
  intros Hrun.
  destruct (run_rounds_stages _ run Hrun)
    as (df0 & df1' & df2' & Hpre & S1 & U2 & S2 & U3 & S3 & ->).
  assert (Forall unallocated df0) as H0.
  { apply Forall_forall. intros r [i Hi]%list_elem_of_lookup_1.
    destruct (preprocess_unallocated raw df0 i r Hpre Hi) as (? & ? & _). by split. }
  assert (Forall (λ r, unallocated r ∨ granted "1" col_d1 r) (after_round1 run)) as H1.
  { eapply Forall2_Forall_r; [exact S1|].
    eapply Forall_impl; [exact H0|]. intros r Hun r' Hstep.
    pose proof (round_step_unallocated col_d1 1 r r' Hstep Hun) as Hr'.
    by rewrite (proj1 str_round_number) in Hr'. }
  assert (Forall (λ r, unallocated r ∨ granted "1" col_d1 r) df1') as H1'.
  { eapply Forall2_Forall_r; [exact U2|].
    eapply Forall_impl; [exact H1|]. intros r [Hun|Hg] r' Hsame.
    - left. by eapply same_except_prefs_unallocated.
    - right. by eapply same_except_prefs_granted_d1. }
  assert (Forall (λ r, unallocated r ∨ granted "1" col_d1 r ∨ granted "2" col_d2 r)
                 (after_round2 run)) as H2.
  { eapply Forall2_Forall_r; [exact S2|].
    eapply Forall_impl; [exact H1'|]. intros r [Hun|Hg] r' Hstep.
    - pose proof (round_step_unallocated col_d2 2 r r' Hstep Hun) as Hr'.
      rewrite (proj1 (proj2 str_round_number)) in Hr'. destruct Hr'; auto.
    - right. left. by eapply round_step_granted. }
  assert (Forall (λ r, unallocated r ∨ granted "1" col_d1 r ∨ granted "2" col_d2 r)
                 df2') as H2'.
  { eapply Forall2_Forall_r; [exact U3|].
    eapply Forall_impl; [exact H2|]. intros r [Hun|[Hg|Hg]] r' Hsame.
    - left. by eapply same_except_prefs_unallocated.
    - right. left. by eapply same_except_prefs_granted_d1.
    - right. right. by eapply same_except_prefs_granted_d2. }
  assert (Forall (λ r, unallocated r ∨ granted "1" col_d1 r ∨ granted "2" col_d2 r ∨
                       granted "3" col_d3 r) (after_round3 run)) as H3.
  { eapply Forall2_Forall_r; [exact S3|].
    eapply Forall_impl; [exact H2'|]. intros r [Hun|[Hg|Hg]] r' Hstep.
    - pose proof (round_step_unallocated col_d3 3 r r' Hstep Hun) as Hr'.
      rewrite (proj2 (proj2 str_round_number)) in Hr'. destruct Hr'; auto.
    - right. left. by eapply round_step_granted.
    - right. right. left. by eapply round_step_granted. }
  unfold assign_themes. apply Forall_fmap.
  eapply Forall_impl; [exact H3|]. intros r Hr. unfold granted_slot. simpl.
  destruct Hr as [[? ?]|[(? & ? & ?)|[(? & ? & ?)|(? & ? & ?)]]]; simpl in *; auto 10.
Qed.

(** X16: The three counts of [allocation_stats] add up to the number of teams
    that hold a domain in the final table, which is at most the number of
    teams. *)
Theorem allocation_stats_add_up (raw : RawFrame) (run : Run) :
  run_rounds raw = Ok run →
  (round1 (allocation_stats run) + round2 (allocation_stats run) +
   round3 (allocation_stats run))%nat = allocated_count (final run) ∧
  (allocated_count (final run) ≤ length (final run))%nat.
Proof.
  intros Hrun.
  destruct (run_rounds_Ok raw run Hrun)
    as (df0 & s1 & s2 & s3 & Hpre & Hr1 & Hr2 & Hr3 & Hfin & ->).
  destruct (allocate_round_spec _ _ _ _ _ Hr1) as [p1 Hs1].
  destruct (allocate_round_spec _ _ _ _ _ Hr2) as [p2 Hs2].
  destruct (allocate_round_spec _ _ _ _ _ Hr3) as [p3 Hs3].
  apply round_spec_allocated_count in Hs1, Hs2, Hs3.
  assert (∀ df k, allocated_count (update_preferences df k) = allocated_count df)
    as Hupd.
  { intros df k. apply allocated_count_same_alocare.
    eapply Forall2_impl; [apply update_preferences_same_except|].
    by intros r r' (_ & _ & _ & _ & _ & ? & _). }
  rewrite !Hupd in *.
  assert (allocated_count df0 = 0%nat) as H0.
  { apply allocated_count_none. intros r [i Hi]%list_elem_of_lookup_1.
    by destruct (preprocess_unallocated raw df0 i r Hpre Hi) as [? _]. }
  assert (allocated_count (final run) = allocated_count (after_round3 run)) as Hf.
  { rewrite Hfin. apply allocated_count_same_alocare.
    unfold assign_themes. by apply Forall2_fmap_self. }
  simpl. split; [lia|]. apply length_filter.
Qed.

(** X17: A team without group (a missing or empty name, or a name that starts
    with a hyphen) is never allocated: in the final table it has no domain
    and the default theme. *)
Theorem team_without_group_is_never_allocated (raw : RawFrame) (run : Run)
    (i : nat) (r : Row) :
  run_rounds raw = Ok run → final run !! i = Some r → grupa r = None →
  alocare r = "" ∧ runda r = "" ∧ tema_proiect r = MANUAL.
Proof.
  intros Hrun Hi Hg.
  destruct (run_rounds_stages _ run Hrun)
    as (df0 & df1' & df2' & Hpre & S1 & U2 & S2 & U3 & S3 & Hfin).
  set (Q := λ r : Row, grupa r = None → unallocated r).
  assert (∀ c k r r', round_step c k r r' → Q r → Q r') as Hstep.
  { intros c k r1 r2 [-> | (_ & _ & Hsome & ->)] HQ; [done|]. by intros ?. }
  assert (∀ k r r', same_except_prefs k r r' → Q r → Q r') as Hupd.
  { intros k r1 r2 Hsame HQ Hnone.
    eapply same_except_prefs_unallocated; [done|]. apply HQ.
    destruct Hsame as (_ & _ & <- & _). done. }
  assert (Forall Q df0) as H0.
  { apply Forall_forall. intros r0 [j Hj]%list_elem_of_lookup_1 _.
    destruct (preprocess_unallocated raw df0 j r0 Hpre Hj) as (? & ? & _). by split. }
  assert (Forall Q (after_round3 run)) as H3.
  { eapply Forall2_Forall_r; [exact S3|]. eapply Forall_impl; [|by eauto].
    eapply Forall2_Forall_r; [exact U3|]. eapply Forall_impl; [|by eauto].
    eapply Forall2_Forall_r; [exact S2|]. eapply Forall_impl; [|by eauto].
    eapply Forall2_Forall_r; [exact U2|]. eapply Forall_impl; [|by eauto].
    eapply Forall2_Forall_r; [exact S1|]. eapply Forall_impl; [|by eauto].
    exact H0. }
  rewrite Hfin, assign_themes_lookup in Hi.
  apply fmap_Some in Hi as (r3 & Hi & ->). simpl in *.
  rewrite Forall_forall in H3.
  destruct (H3 r3) as [Hal Hru]; [by eapply list_elem_of_lookup_2 | done |].
  split; [done|]. split; [done|]. by apply theme_of_unallocated.
Qed.
End run_facts.

(** ** The orchestrator: failures and effects *)

Section effects.
Context `{RandomGen} `{CsvIO}.

End effects.

(** ** Reading a partition *)

Section bounds.
Context `{RandomGen}.

(** X9: [select_team] reads a partition that is not empty inside its bounds:
    position 0 of a partition of one team, the drawn position otherwise,
    and the team it returns is the one at that position. *)
Theorem select_team_reads_in_range (g : rng_state) (group_df : list nat) :
  group_df ≠ [] →
  group_df !! (if decide (length group_df = 1%nat) then 0%nat
               else (randint g (length group_df)).1)
  = Some (select_team g group_df).1.
Proof.
  intros Hne. unfold select_team. case_decide as Hlen.
  - by destruct group_df as [|i [|j l]].
  - pose proof (randint_range g (length group_df)) as Hr.
    destruct (randint g (length group_df)) as [k g'] eqn:Hk. simpl in *.
    assert (k < length group_df)%nat as Hlt.
    { apply Hr. destruct group_df; [done | simpl; lia]. }
    apply lookup_lt_is_Some in Hlt as [i Hi]. by rewrite Hi.
Qed.
End bounds.

(** ** The update only drops preferences *)

Ltac solve_sublist :=
  repeat first [apply sublist_nil_l | apply sublist_skip | apply sublist_cons].

Lemma update_round2_drops dict r :
  nonempty (prefs (update_round2 dict r)) `sublist_of` nonempty (prefs r).
Proof.
  unfold update_round2, prefs.
  destruct (grupa r ≫= _) as [claimed|]; [|done].
  destruct (bool_decide _); [|done].
  destruct (_ && _); simpl; rewrite !nonempty_cons, !nonempty_nil;
    repeat case_decide; try done; solve_sublist.
Qed.

Lemma update_round3_drops dict r :
  nonempty (prefs (update_round3 dict r)) `sublist_of` nonempty (prefs r).
Proof.
  unfold update_round3, prefs.
  destruct (grupa r ≫= _) as [claimed|]; [|done].
  destruct (bool_decide _); simpl; [|done].
  rewrite !nonempty_cons, !nonempty_nil; repeat case_decide; try done; solve_sublist.
Qed.

(** X11: For every round number the update only drops preferences: the filled
    preferences of a team after the update are filled preferences it had
    before, in the same order. *)
Theorem update_preferences_only_drops (df : DataFrame) (round_num : Z) :
  Forall2 (λ r r', nonempty (prefs r') `sublist_of` nonempty (prefs r))
          df (update_preferences df round_num).
Proof.
  unfold update_preferences.
  destruct (negb (existsb is_allocated df)); [by apply Forall2_self|].
  destruct (decide (round_num = 2)).
  { apply Forall2_fmap_self, update_round2_drops. }
  destruct (decide (round_num = 3)); [|by apply Forall2_self].
  apply Forall2_fmap_self, update_round3_drops.
Qed.

(** ** The further properties on the examples *)

(** A table with a team that has no group. *)
Definition with_outsider : list RawRow :=
  [team "-1" "A-a,B-b,C-c"; team "X-1" "A-d"; team "X-2" "A-e,B-f"].

(** X4 on an example. *)
Lemma allocate_round_changes_only_candidates_witness :
  length three_rounds_df1 = length three_rounds_df0 ∧
  Forall2 (round_step col_d1 1) three_rounds_df0 three_rounds_df1.
Proof.
  apply (@allocate_round_changes_only_candidates counter_gen _ _ col_d1 1 2).
  vm_compute. reflexivity.
Defined.

(** X5: X-1 asked for A in round 1 and lost the draw: A is held in group X. *)
Lemma requested_domain_is_held_after_round_witness :
  held three_rounds_df1 "X"
       (get_col col_d1 (preprocess_row (team "X-1" "A-a,B-b,C-c"))).
Proof.
  apply (@requested_domain_is_held_after_round counter_gen three_rounds_df0
           three_rounds_df1 col_d1 1 2 0).
  - vm_compute. reflexivity.
  - reflexivity.
  - reflexivity.
  - reflexivity.
Defined.

(** X6: Round 1 again on the table after round 1: the two teams left ask for
    A, which group X holds. *)
Lemma allocate_round_zero_iff_witness :
  (0%nat = 0%nat ↔ three_rounds_df1 = three_rounds_df1) ∧
  (0%nat = 0%nat ↔
   ∀ i r g, three_rounds_df1 !! i = Some r → is_candidate col_d1 r = true →
            grupa r = Some g → held three_rounds_df1 g (get_col col_d1 r)).
Proof.
  apply (@allocate_round_zero_iff counter_gen three_rounds_df1 three_rounds_df1
           col_d1 1 0).
  vm_compute. reflexivity.
Defined.

(** X7 on an example. *)
Lemma allocate_round_counts_new_allocations_witness :
  allocated_count three_rounds_df1 = (allocated_count three_rounds_df0 + 2)%nat.
Proof.
  apply (@allocate_round_counts_new_allocations counter_gen _ _ col_d1 1 2).
  vm_compute. reflexivity.
Defined.

(** X8 on an example. *)
Lemma allocate_round_counts_free_partitions_witness :
  2%nat = length (filter (λ p, ¬ held three_rounds_df0 p.1.1 p.1.2)
                         (partitions col_d1 three_rounds_df0)).
Proof.
  apply (@allocate_round_counts_free_partitions counter_gen _ three_rounds_df1
           col_d1 1 2).
  vm_compute. reflexivity.
Defined.

(** X12 on an example. *)
Lemma every_partition_is_served_witness :
  ∃ run, @run_rounds counter_gen three_rounds = Ok run ∧
         allocation_stats run = {| round1 := 2; round2 := 1; round3 := 1 |} ∧
         ∃ df0, preprocess_dataframe three_rounds = Ok df0 ∧
           round1 (allocation_stats run) = length (partitions col_d1 df0) ∧
           round2 (allocation_stats run)
             = length (partitions col_d2 (update_preferences (after_round1 run) 2)) ∧
           round3 (allocation_stats run)
             = length (partitions col_d3 (update_preferences (after_round2 run) 3)).
Proof.
  eexists. split; [vm_compute; reflexivity|]. split; [reflexivity|].
  apply (@every_partition_is_served counter_gen three_rounds).
  vm_compute. reflexivity.
Defined.

(** X14 on an example. *)
Lemma every_team_in_output_witness :
  ∃ run, @run_rounds counter_gen (Frame with_outsider) = Ok run ∧
         Forall2 (λ raw r,
                    Echipa r = raw_Echipa raw ∧ Optiuni r = raw_Optiuni raw ∧
                    same_team (preprocess_row raw) r ∧ tema_proiect r ≠ "")
                 with_outsider (final run).
Proof.
  eexists. split; [vm_compute; reflexivity|].
  apply (@every_team_in_output counter_gen with_outsider).
  vm_compute. reflexivity.
Defined.

(** X15 on an example. *)
Lemma final_round_names_the_granted_preference_witness :
  ∃ run, @run_rounds counter_gen three_rounds = Ok run ∧
         runda <$> final run = ["3"; "2"; "1"; "1"] ∧
         Forall granted_slot (final run).
Proof.
  eexists. split; [vm_compute; reflexivity|]. split; [reflexivity|].
  apply (@final_round_names_the_granted_preference counter_gen three_rounds).
  vm_compute. reflexivity.
Defined.

(** X16 on an example. *)
Lemma allocation_stats_add_up_witness :
  ∃ run, @run_rounds counter_gen (Frame with_outsider) = Ok run ∧
         allocation_stats run = {| round1 := 1; round2 := 1; round3 := 0 |} ∧
         (round1 (allocation_stats run) + round2 (allocation_stats run) +
          round3 (allocation_stats run))%nat = allocated_count (final run) ∧
         (allocated_count (final run) ≤ length (final run))%nat.
Proof.
  eexists. split; [vm_compute; reflexivity|]. split; [reflexivity|].
  apply (@allocation_stats_add_up counter_gen (Frame with_outsider)).
  vm_compute. reflexivity.
Defined.

(** X17 on an example. *)
Lemma team_without_group_is_never_allocated_witness :
  ∃ run r, @run_rounds counter_gen (Frame with_outsider) = Ok run ∧
           final run !! 0%nat = Some r ∧ Echipa r = Some "-1" ∧ d1 r = "A" ∧
           alocare r = "" ∧ runda r = "" ∧ tema_proiect r = MANUAL.
Proof.
  eexists. eexists. split; [vm_compute; reflexivity|].
  split; [vm_compute; reflexivity|]. split; [reflexivity|]. split; [reflexivity|].
  eapply (@team_without_group_is_never_allocated counter_gen (Frame with_outsider)
            _ 0%nat).
  - vm_compute. reflexivity.
  - vm_compute. reflexivity.
  - reflexivity.
Defined.

(** X9 on an example. *)
Lemma select_team_reads_in_range_witness :
  [4; 7; 9]%nat !! (if decide (length [4; 7; 9]%nat = 1%nat) then 0%nat
                    else (@randint counter_gen 5 (length [4; 7; 9]%nat)).1)
  = Some (@select_team counter_gen 5 [4; 7; 9]%nat).1.
Proof. by apply (@select_team_reads_in_range counter_gen 5 [4; 7; 9]%nat). Defined.
